(** * Black Label Luxury Rentals API: a shallow embedding of main.py and
    schemas.py, and the properties of its handlers.

    Layout: Python values and strings; exceptions and the handler monad;
    the schema classes of schemas.py with their validation; the document
    store and the persistence gateway; the handlers of main.py; then the
    lemmas. *)

From Stdlib Require Import ZArith NArith String Ascii List Lia.
From Stdlib Require Import Floats.SpecFloat.
From Stdlib Require Import HexadecimalString HexadecimalN.
From stdpp Require Import gmap strings list fin_maps pretty.

Set Warnings "-register-all".
Local Open Scope string_scope.
Local Open Scope list_scope.
Local Open Scope nat_scope.

(** ** Python values *)

(** The values that travel through the handlers: JSON-shaped data, with
    Python's [None], [bool], [int], [float], [str], [list] and [dict] (keys
    are always [str] in this program). A [float] is an IEEE 754 binary64
    value, written with the Standard Library's [spec_float]. *)
Inductive Value : Type :=
  | VNone
  | VBool (b : bool)
  | VInt (z : Z)
  | VFloat (f : spec_float)
  | VStr (s : string)
  | VList (l : list Value)
  | VDict (d : gmap string Value).

Abbreviation Dict := (gmap string Value).

(** A Python [str] is a sequence of code points; it is written here as the
    string of its UTF-8 bytes. Slicing counts code points, so a byte of the
    form 10xxxxxx (a continuation byte) never starts a character. *)
Definition is_continuation (c : ascii) : bool :=
  let n := N_of_ascii c in ((128 <=? n) && (n <? 192))%N.

(** [len(s)] *)
Fixpoint py_len (s : string) : nat :=
  match s with
  | EmptyString => 0
  | String c t => if is_continuation c then py_len t else S (py_len t)
  end.

(** [s[:n]] *)
Fixpoint py_prefix (n : nat) (s : string) : string :=
  match s with
  | EmptyString => EmptyString
  | String c t =>
      if is_continuation c then String c (py_prefix n t)
      else match n with
           | O => EmptyString
           | S n' => String c (py_prefix n' t)
           end
  end.

(** Truth value of an [Optional[str]]: [None] and the empty string are
    false. *)
Definition truthy_str (o : option string) : bool :=
  match o with
  | Some s => negb (String.eqb s "")
  | None => false
  end.

(** [o or default] for an [Optional[str]]. *)
Definition str_or (o : option string) (default : string) : string :=
  match o with
  | Some s => if String.eqb s "" then default else s
  | None => default
  end.

(** ** Generated identifiers *)

(** The value under the key [_id] of a record read from the store: the
    store's own identifier (a BSON ObjectId, a number of 12 bytes), or a
    [str] once a handler has converted it. *)
Inductive IdValue : Type :=
  | IdObject (oid : N)
  | IdStr (s : string).

Fixpoint zeros (n : nat) : string :=
  match n with
  | O => EmptyString
  | S n' => String "0" (zeros n')
  end.

(** [str(ObjectId)]: the hexadecimal digits of the identifier, padded with
    zeros on the left to 24 digits. *)
Definition oid_hex (oid : N) : string :=
  let digits := NilZero.string_of_uint (N.to_hex_uint oid) in
  zeros (24 - String.length digits) +:+ digits.

(** [str(it["_id"])] *)
Definition id_str (i : IdValue) : string :=
  match i with
  | IdObject oid => oid_hex oid
  | IdStr s => s
  end.

(** Truth value of [it.get("_id")] when the key is present: an ObjectId is
    always true, a [str] is true unless empty. *)
Definition id_truthy (i : IdValue) : bool :=
  match i with
  | IdObject _ => true
  | IdStr s => negb (String.eqb s "")
  end.

(** A record as the store returns it: a [dict] whose key [_id], when it
    is there, holds the identifier, and whose other keys hold the fields.
    The key [_id] is kept apart because its values are of a kind of their
    own. *)
Record Document : Type := {
  doc_id : option IdValue;
  doc_fields : Dict;
}.

(** ** Exceptions and the handler monad *)

Inductive Exception : Type :=
  | HTTPException (status_code : Z) (detail : string)
  | ValidationError (loc : string)
  | PyError (cls : string) (msg : string).

Inductive Result (A : Type) : Type :=
  | Ok (a : A)
  | Raise (e : Exception).
Arguments Ok {A} a.
Arguments Raise {A} e.

#[export] Instance Result_ret : MRet Result := fun A a => Ok a.
#[export] Instance Result_bind : MBind Result := fun A B f r =>
  match r with
  | Ok a => f a
  | Raise e => Raise e
  end.
#[export] Instance Result_fmap : FMap Result := fun A B f r =>
  match r with
  | Ok a => Ok (f a)
  | Raise e => Raise e
  end.

Definition is_ok {A} (r : Result A) : bool :=
  match r with Ok _ => true | Raise _ => false end.

(** ** Schema classes (schemas.py) *)

(** How the validation library reads a raw value as a value of a scalar
    type ([int], [float], [str], [bool], [HttpUrl]): which raw values it
    accepts and what it converts them to belongs to the library, so the
    conversions are the methods of an interface and the validators below
    are written over any implementation of it. *)
Class Coercion : Type := {
  as_int : Value → option Z;
  as_float : Value → option spec_float;
  as_str : Value → option string;
  as_bool : Value → option bool;
  as_url : Value → option string;
}.

(** The conversions that accept a value of the very type only. *)
Definition strict_coercion : Coercion := {|
  as_int x := match x with VInt z => Some z | _ => None end;
  as_float x :=
    match x with
    | VFloat f => Some f
    | VInt z => Some (binary_normalize 53 1024 z 0 false)
    | _ => None
    end;
  as_str x := match x with VStr s => Some s | _ => None end;
  as_bool x := match x with VBool b => Some b | _ => None end;
  as_url x := match x with VStr s => Some s | _ => None end;
|}.

(** [BaseModel.model_dump]: the record as a [dict]. *)
Class BaseModel (T : Type) : Type := {
  model_dump : T → Dict;
}.

Definition Validator (A : Type) : Type := Value → option A.

(** [ge] and [le] of [Field], on an [int]. *)
Definition in_bounds (ge le : option Z) (z : Z) : bool :=
  match ge with Some b => (b <=? z)%Z | None => true end &&
  match le with Some b => (z <=? b)%Z | None => true end.

(** [Field(ge=0)] on a [float]: [0 <= f], false on NaN. *)
Definition float_ge0 (f : spec_float) : bool := SFleb (S754_zero false) f.

(** [Literal[...]]: the raw value is one of the listed strings. *)
Definition literal_ (choices : list string) : Validator string := fun x =>
  match x with
  | VStr s => if bool_decide (s ∈ choices) then Some s else None
  | _ => None
  end.

(** [dict] *)
Definition dict_ : Validator Dict := fun x =>
  match x with
  | VDict d => Some d
  | _ => None
  end.

(** [Optional[T]] *)
Definition optional_ {A} (p : Validator A) : Validator (option A) := fun x =>
  match x with
  | VNone => Some None
  | _ => Some <$> p x
  end.

(** [List[T]] *)
Definition list_ {A} (p : Validator A) : Validator (list A) := fun x =>
  match x with
  | VList l => mapM p l
  | _ => None
  end.

(** A field without default: the key must be there and its value valid. *)
Definition required {A} (raw : Dict) (name : string) (p : Validator A)
  : Result A :=
  match raw !! name with
  | Some x =>
      match p x with
      | Some a => Ok a
      | None => Raise (ValidationError name)
      end
  | None => Raise (ValidationError name)
  end.

(** A field with a default: taken when the key is absent. *)
Definition with_default {A} (raw : Dict) (name : string) (p : Validator A)
  (default : A) : Result A :=
  match raw !! name with
  | Some x =>
      match p x with
      | Some a => Ok a
      | None => Raise (ValidationError name)
      end
  | None => Ok default
  end.

Section ScalarValidators.
Context `{Coercion}.

Definition int_ (ge le : option Z) : Validator Z := fun x =>
  match as_int x with
  | Some z => if in_bounds ge le z then Some z else None
  | None => None
  end.

Definition float_ (ge0 : bool) : Validator spec_float := fun x =>
  match as_float x with
  | Some f => if implb ge0 (float_ge0 f) then Some f else None
  | None => None
  end.

Definition str_ : Validator string := as_str.
Definition bool_ : Validator bool := as_bool.
Definition url_ : Validator string := as_url.
End ScalarValidators.

Definition opt_value {A} (f : A → Value) (o : option A) : Value :=
  match o with
  | Some a => f a
  | None => VNone
  end.

Definition str_list (l : list string) : Value := VList (VStr <$> l).

Module Vehicle.
(** [class Vehicle(BaseModel)] *)
Record t : Type := {
  slug : string;
  year : Z;
  make : string;
  model : string;
  trim : option string;
  type : string;
  drive_mode : string;
  price_per_day : spec_float;
  price_per_week : option spec_float;
  mileage_limit_per_day : Z;
  overage_fee_per_mile : spec_float;
  security_deposit : Z;
  transmission : option string;
  drivetrain : option string;
  seats : option Z;
  color : option string;
  horsepower : option Z;
  torque : option Z;
  zero_to_60 : option spec_float;
  features : list string;
  images : list string;
  video_url : option string;
  tags : list string;
  available : bool;
  availability_notes : option string;
}.

Definition types : list string :=
  ["supercar"; "suv"; "luxury"; "sedan"; "convertible"].
Definition drive_modes : list string := ["self-drive"; "chauffeur"; "both"].

Section Validate.
Context `{Coercion}.

(** Validation of a raw payload against the class: every field is
    read with its type and its [Field] constraints, in the order of
    the class body; the first offending field is reported. *)
Definition validate (raw : Dict) : Result t :=
  slug ← required raw "slug" str_;
  year ← required raw "year" (int_ (Some 1900%Z) (Some 2100%Z));
  make ← required raw "make" str_;
  model ← required raw "model" str_;
  trim ← with_default raw "trim" (optional_ str_) None;
  type ← required raw "type" (literal_ types);
  drive_mode ← with_default raw "drive_mode" (literal_ drive_modes) "both";
  price_per_day ← required raw "price_per_day" (float_ true);
  price_per_week ←
    with_default raw "price_per_week" (optional_ (float_ true)) None;
  mileage_limit_per_day ←
    required raw "mileage_limit_per_day" (int_ (Some 0%Z) None);
  overage_fee_per_mile ← required raw "overage_fee_per_mile" (float_ true);
  security_deposit ←
    required raw "security_deposit" (int_ (Some 0%Z) (Some 10000%Z));
  transmission ← with_default raw "transmission" (optional_ str_) None;
  drivetrain ← with_default raw "drivetrain" (optional_ str_) None;
  seats ←
    with_default raw "seats" (optional_ (int_ (Some 1%Z) (Some 9%Z))) None;
  color ← with_default raw "color" (optional_ str_) None;
  horsepower ←
    with_default raw "horsepower" (optional_ (int_ (Some 0%Z) None)) None;
  torque ←
    with_default raw "torque" (optional_ (int_ (Some 0%Z) None)) None;
  zero_to_60 ←
    with_default raw "zero_to_60" (optional_ (float_ true)) None;
  features ← with_default raw "features" (list_ str_) [];
  images ← with_default raw "images" (list_ url_) [];
  video_url ← with_default raw "video_url" (optional_ url_) None;
  tags ← with_default raw "tags" (list_ str_) [];
  available ← with_default raw "available" bool_ true;
  availability_notes ←
    with_default raw "availability_notes" (optional_ str_) None;
  Ok {| slug := slug; year := year; make := make; model := model;
        trim := trim; type := type; drive_mode := drive_mode;
        price_per_day := price_per_day; price_per_week := price_per_week;
        mileage_limit_per_day := mileage_limit_per_day;
        overage_fee_per_mile := overage_fee_per_mile;
        security_deposit := security_deposit;
        transmission := transmission; drivetrain := drivetrain;
        seats := seats; color := color; horsepower := horsepower;
        torque := torque; zero_to_60 := zero_to_60;
        features := features; images := images; video_url := video_url;
        tags := tags; available := available;
        availability_notes := availability_notes |}.

(** A raw payload breaks one of the ranges on [year], [seats],
    [price_per_day], [mileage_limit_per_day] and [security_deposit]:
    the value it gives for the field, read with the field's type, is
    outside the range. *)
Definition out_of_range (raw : Dict) : Prop :=
  (∃ x y, raw !! "year" = Some x ∧ as_int x = Some y ∧
          ¬ (1900 ≤ y ≤ 2100)%Z)
  ∨ (∃ x y, raw !! "seats" = Some x ∧ x ≠ VNone ∧ as_int x = Some y ∧
            ¬ (1 ≤ y ≤ 9)%Z)
  ∨ (∃ x f, raw !! "price_per_day" = Some x ∧ as_float x = Some f ∧
            float_ge0 f = false)
  ∨ (∃ x y, raw !! "mileage_limit_per_day" = Some x ∧
            as_int x = Some y ∧ ¬ (0 ≤ y)%Z)
  ∨ (∃ x y, raw !! "security_deposit" = Some x ∧ as_int x = Some y ∧
            ¬ (0 ≤ y ≤ 10000)%Z).
End Validate.

(** The ranges of the class on a record. *)
Definition in_range (v : t) : Prop :=
  (1900 ≤ year v ≤ 2100)%Z
  ∧ (∀ s, seats v = Some s → (1 ≤ s ≤ 9)%Z)
  ∧ float_ge0 (price_per_day v) = true
  ∧ (0 ≤ mileage_limit_per_day v)%Z
  ∧ (0 ≤ security_deposit v ≤ 10000)%Z.

Definition dump (v : t) : Dict :=
  list_to_map [
    ("slug", VStr (slug v));
    ("year", VInt (year v));
    ("make", VStr (make v));
    ("model", VStr (model v));
    ("trim", opt_value VStr (trim v));
    ("type", VStr (type v));
    ("drive_mode", VStr (drive_mode v));
    ("price_per_day", VFloat (price_per_day v));
    ("price_per_week", opt_value VFloat (price_per_week v));
    ("mileage_limit_per_day", VInt (mileage_limit_per_day v));
    ("overage_fee_per_mile", VFloat (overage_fee_per_mile v));
    ("security_deposit", VInt (security_deposit v));
    ("transmission", opt_value VStr (transmission v));
    ("drivetrain", opt_value VStr (drivetrain v));
    ("seats", opt_value VInt (seats v));
    ("color", opt_value VStr (color v));
    ("horsepower", opt_value VInt (horsepower v));
    ("torque", opt_value VInt (torque v));
    ("zero_to_60", opt_value VFloat (zero_to_60 v));
    ("features", str_list (features v));
    ("images", str_list (images v));
    ("video_url", opt_value VStr (video_url v));
    ("tags", str_list (tags v));
    ("available", VBool (available v));
    ("availability_notes", opt_value VStr (availability_notes v))
  ].
End Vehicle.

#[export] Instance Vehicle_model : BaseModel Vehicle.t :=
  {| model_dump := Vehicle.dump |}.

Module Booking.
(** [class Booking(BaseModel)] *)
Record t : Type := {
  vehicle_id : string;
  first_name : string;
  last_name : string;
  email : string;
  phone : string;
  preferred_contact : string;
  start_date : string;
  end_date : string;
  delivery_location : option string;
  occasion : option string;
  driver_age_confirmed : bool;
  license_upload_url : option string;
  insurance_upload_url : option string;
  selfie_upload_url : option string;
  drive_mode : option string;
  addons : list string;
  notes : option string;
  status : string;
}.

Definition contacts : list string := ["whatsapp"; "phone"; "email"].
Definition occasions : list string :=
  ["nightlife"; "wedding"; "corporate"; "weekend"; "other"].
Definition drive_modes : list string := ["self-drive"; "chauffeur"].
Definition statuses : list string :=
  ["new"; "reviewing"; "approved"; "declined"; "canceled"].

Section Validate.
Context `{Coercion}.

Definition validate (raw : Dict) : Result t :=
  vehicle_id ← required raw "vehicle_id" str_;
  first_name ← required raw "first_name" str_;
  last_name ← required raw "last_name" str_;
  email ← required raw "email" str_;
  phone ← required raw "phone" str_;
  preferred_contact ←
    with_default raw "preferred_contact" (literal_ contacts) "whatsapp";
  start_date ← required raw "start_date" str_;
  end_date ← required raw "end_date" str_;
  delivery_location ←
    with_default raw "delivery_location" (optional_ str_) None;
  occasion ←
    with_default raw "occasion" (optional_ (literal_ occasions)) None;
  driver_age_confirmed ←
    with_default raw "driver_age_confirmed" bool_ false;
  license_upload_url ←
    with_default raw "license_upload_url" (optional_ url_) None;
  insurance_upload_url ←
    with_default raw "insurance_upload_url" (optional_ url_) None;
  selfie_upload_url ←
    with_default raw "selfie_upload_url" (optional_ url_) None;
  drive_mode ←
    with_default raw "drive_mode" (optional_ (literal_ drive_modes)) None;
  addons ← with_default raw "addons" (list_ str_) [];
  notes ← with_default raw "notes" (optional_ str_) None;
  status ← with_default raw "status" (literal_ statuses) "new";
  Ok {| vehicle_id := vehicle_id; first_name := first_name;
        last_name := last_name; email := email; phone := phone;
        preferred_contact := preferred_contact;
        start_date := start_date; end_date := end_date;
        delivery_location := delivery_location; occasion := occasion;
        driver_age_confirmed := driver_age_confirmed;
        license_upload_url := license_upload_url;
        insurance_upload_url := insurance_upload_url;
        selfie_upload_url := selfie_upload_url;
        drive_mode := drive_mode; addons := addons; notes := notes;
        status := status |}.
End Validate.

Definition dump (b : t) : Dict :=
  list_to_map [
    ("vehicle_id", VStr (vehicle_id b));
    ("first_name", VStr (first_name b));
    ("last_name", VStr (last_name b));
    ("email", VStr (email b));
    ("phone", VStr (phone b));
    ("preferred_contact", VStr (preferred_contact b));
    ("start_date", VStr (start_date b));
    ("end_date", VStr (end_date b));
    ("delivery_location", opt_value VStr (delivery_location b));
    ("occasion", opt_value VStr (occasion b));
    ("driver_age_confirmed", VBool (driver_age_confirmed b));
    ("license_upload_url", opt_value VStr (license_upload_url b));
    ("insurance_upload_url", opt_value VStr (insurance_upload_url b));
    ("selfie_upload_url", opt_value VStr (selfie_upload_url b));
    ("drive_mode", opt_value VStr (drive_mode b));
    ("addons", str_list (addons b));
    ("notes", opt_value VStr (notes b));
    ("status", VStr (status b))
  ].
End Booking.

#[export] Instance Booking_model : BaseModel Booking.t :=
  {| model_dump := Booking.dump |}.

Module Lead.
(** [class Lead(BaseModel)] *)
Record t : Type := {
  source : string;
  form_type : string;
  payload : Dict;
  status : string;
}.

Definition sources : list string := ["web"; "whatsapp"; "phone"].
Definition form_types : list string := ["quote"; "contact"; "newsletter"].
Definition statuses : list string :=
  ["new"; "contacted"; "qualified"; "closed"].

(** The constructor call [Lead(source=..., form_type=..., payload=...)]:
    the keyword arguments are validated like a raw payload. *)
Definition validate (kwargs : Dict) : Result t :=
  source ← with_default kwargs "source" (literal_ sources) "web";
  form_type ← with_default kwargs "form_type" (literal_ form_types) "quote";
  payload ← with_default kwargs "payload" dict_ ∅;
  status ← with_default kwargs "status" (literal_ statuses) "new";
  Ok {| source := source; form_type := form_type; payload := payload;
        status := status |}.

Definition dump (l : t) : Dict :=
  list_to_map [
    ("source", VStr (source l));
    ("form_type", VStr (form_type l));
    ("payload", VDict (payload l));
    ("status", VStr (status l))
  ].
End Lead.

#[export] Instance Lead_model : BaseModel Lead.t :=
  {| model_dump := Lead.dump |}.

Module Testimonial.
(** [class Testimonial(BaseModel)] *)
Record t : Type := {
  author_name : string;
  location : option string;
  quote : string;
  rating : option Z;
  image_url : option string;
}.

Section Validate.
Context `{Coercion}.

Definition validate (raw : Dict) : Result t :=
  author_name ← required raw "author_name" str_;
  location ← with_default raw "location" (optional_ str_) None;
  quote ← required raw "quote" str_;
  rating ←
    with_default raw "rating" (optional_ (int_ (Some 1%Z) (Some 5%Z))) None;
  image_url ← with_default raw "image_url" (optional_ url_) None;
  Ok {| author_name := author_name; location := location; quote := quote;
        rating := rating; image_url := image_url |}.
End Validate.

Definition dump (x : t) : Dict :=
  list_to_map [
    ("author_name", VStr (author_name x));
    ("location", opt_value VStr (location x));
    ("quote", VStr (quote x));
    ("rating", opt_value VInt (rating x));
    ("image_url", opt_value VStr (image_url x))
  ].
End Testimonial.

#[export] Instance Testimonial_model : BaseModel Testimonial.t :=
  {| model_dump := Testimonial.dump |}.

Module Blogpost.
(** [class Blogpost(BaseModel)] *)
Record t : Type := {
  slug : string;
  title : string;
  excerpt : option string;
  cover_image_url : option string;
  body : string;
  category : string;
  author : option string;
  published_at : option string;
}.

Definition categories : list string :=
  ["nightlife"; "corporate"; "weekenders"; "spotlight"].

Section Validate.
Context `{Coercion}.

Definition validate (raw : Dict) : Result t :=
  slug ← required raw "slug" str_;
  title ← required raw "title" str_;
  excerpt ← with_default raw "excerpt" (optional_ str_) None;
  cover_image_url ← with_default raw "cover_image_url" (optional_ url_) None;
  body ← required raw "body" str_;
  category ← required raw "category" (literal_ categories);
  author ← with_default raw "author" (optional_ str_) None;
  published_at ← with_default raw "published_at" (optional_ str_) None;
  Ok {| slug := slug; title := title; excerpt := excerpt;
        cover_image_url := cover_image_url; body := body;
        category := category; author := author;
        published_at := published_at |}.
End Validate.

Definition dump (x : t) : Dict :=
  list_to_map [
    ("slug", VStr (slug x));
    ("title", VStr (title x));
    ("excerpt", opt_value VStr (excerpt x));
    ("cover_image_url", opt_value VStr (cover_image_url x));
    ("body", VStr (body x));
    ("category", VStr (category x));
    ("author", opt_value VStr (author x));
    ("published_at", opt_value VStr (published_at x))
  ].
End Blogpost.

#[export] Instance Blogpost_model : BaseModel Blogpost.t :=
  {| model_dump := Blogpost.dump |}.

Module Faq.
(** [class Faq(BaseModel)] *)
Record t : Type := {
  question : string;
  answer : string;
  category : option string;
  order : option Z;
}.

Definition categories : list string :=
  ["policy"; "booking"; "vehicles"; "services"].

Section Validate.
Context `{Coercion}.

Definition validate (raw : Dict) : Result t :=
  question ← required raw "question" str_;
  answer ← required raw "answer" str_;
  category ←
    with_default raw "category" (optional_ (literal_ categories)) None;
  order ← with_default raw "order" (optional_ (int_ None None)) None;
  Ok {| question := question; answer := answer; category := category;
        order := order |}.
End Validate.

Definition dump (x : t) : Dict :=
  list_to_map [
    ("question", VStr (question x));
    ("answer", VStr (answer x));
    ("category", opt_value VStr (category x));
    ("order", opt_value VInt (order x))
  ].
End Faq.

#[export] Instance Faq_model : BaseModel Faq.t :=
  {| model_dump := Faq.dump |}.

Module Service.
(** [class Service(BaseModel)] *)
Record t : Type := {
  slug : string;
  title : string;
  summary : option string;
  body : option string;
  hero_image_url : option string;
  highlights : list string;
}.

Section Validate.
Context `{Coercion}.

Definition validate (raw : Dict) : Result t :=
  slug ← required raw "slug" str_;
  title ← required raw "title" str_;
  summary ← with_default raw "summary" (optional_ str_) None;
  body ← with_default raw "body" (optional_ str_) None;
  hero_image_url ← with_default raw "hero_image_url" (optional_ url_) None;
  highlights ← with_default raw "highlights" (list_ str_) [];
  Ok {| slug := slug; title := title; summary := summary; body := body;
        hero_image_url := hero_image_url; highlights := highlights |}.
End Validate.

Definition dump (x : t) : Dict :=
  list_to_map [
    ("slug", VStr (slug x));
    ("title", VStr (title x));
    ("summary", opt_value VStr (summary x));
    ("body", opt_value VStr (body x));
    ("hero_image_url", opt_value VStr (hero_image_url x));
    ("highlights", str_list (highlights x))
  ].
End Service.

#[export] Instance Service_model : BaseModel Service.t :=
  {| model_dump := Service.dump |}.

Module QuotePayload.
(** [class QuotePayload(BaseModel)] of main.py *)
Record t : Type := {
  vehicle_slug : option string;
  vehicle_id : option string;
  drive_mode : option string;
  start_date : option string;
  end_date : option string;
  delivery_location : option string;
  occasion : option string;
  addons : option (list string);
  utm : option Dict;
}.

Definition dump (p : t) : Dict :=
  list_to_map [
    ("vehicle_slug", opt_value VStr (vehicle_slug p));
    ("vehicle_id", opt_value VStr (vehicle_id p));
    ("drive_mode", opt_value VStr (drive_mode p));
    ("start_date", opt_value VStr (start_date p));
    ("end_date", opt_value VStr (end_date p));
    ("delivery_location", opt_value VStr (delivery_location p));
    ("occasion", opt_value VStr (occasion p));
    ("addons", opt_value str_list (addons p));
    ("utm", opt_value VDict (utm p))
  ].

Section Validate.
Context `{Coercion}.

Definition validate (raw : Dict) : Result t :=
  vehicle_slug ← with_default raw "vehicle_slug" (optional_ str_) None;
  vehicle_id ← with_default raw "vehicle_id" (optional_ str_) None;
  drive_mode ← with_default raw "drive_mode" (optional_ str_) None;
  start_date ← with_default raw "start_date" (optional_ str_) None;
  end_date ← with_default raw "end_date" (optional_ str_) None;
  delivery_location ←
    with_default raw "delivery_location" (optional_ str_) None;
  occasion ← with_default raw "occasion" (optional_ str_) None;
  addons ← with_default raw "addons" (optional_ (list_ str_)) None;
  utm ← with_default raw "utm" (optional_ dict_) None;
  Ok {| vehicle_slug := vehicle_slug; vehicle_id := vehicle_id;
        drive_mode := drive_mode; start_date := start_date;
        end_date := end_date; delivery_location := delivery_location;
        occasion := occasion; addons := addons; utm := utm |}.
End Validate.
End QuotePayload.

#[export] Instance QuotePayload_model : BaseModel QuotePayload.t :=
  {| model_dump := QuotePayload.dump |}.

Module QuoteRequest.
(** [class QuoteRequest(BaseModel)] of main.py *)
Record t : Type := {
  first_name : string;
  last_name : string;
  email : string;
  phone : string;
  preferred_contact : string;
  payload : QuotePayload.t;
}.

(** A field whose type is another class: the raw value is a mapping that
    validates against that class. *)
Definition model_ {T} (validate : Dict → Result T) : Validator T := fun x =>
  match x with
  | VDict d =>
      match validate d with
      | Ok a => Some a
      | Raise _ => None
      end
  | _ => None
  end.

Section Validate.
Context `{Coercion}.

Definition validate (raw : Dict) : Result t :=
  first_name ← required raw "first_name" str_;
  last_name ← required raw "last_name" str_;
  email ← required raw "email" str_;
  phone ← required raw "phone" str_;
  preferred_contact ← with_default raw "preferred_contact" str_ "whatsapp";
  payload ← required raw "payload" (model_ QuotePayload.validate);
  Ok {| first_name := first_name; last_name := last_name; email := email;
        phone := phone; preferred_contact := preferred_contact;
        payload := payload |}.
End Validate.
End QuoteRequest.

(** ** Regular expressions of the store's query language *)

(** The filter built for [make] is a [$regex] condition, so what the query
    selects is decided by the store's regular expressions (Perl syntax).
    The fragment written out here has literal characters, [.], the
    quantifiers [*], [+] and [?], alternation with [|], the anchors [^] and
    [$], and a backslash before a character that is not a letter or a
    digit; a pattern with groups, classes, braces or a backslash before a
    letter or digit is outside it. *)
Module Regex.
Inductive t : Type :=
  | Void
  | Eps
  | Chr (c : ascii)
  | Dot
  | Bol
  | Eol
  | Cat (r1 r2 : t)
  | Alt (r1 r2 : t)
  | Star (r : t).

Inductive token : Type :=
  | TChr (c : ascii)
  | TDot | TBol | TEol | TStar | TPlus | TQuest | TBar.

Definition between (lo hi c : ascii) : bool :=
  ((N_of_ascii lo <=? N_of_ascii c) && (N_of_ascii c <=? N_of_ascii hi))%N.

Definition is_alnum (c : ascii) : bool :=
  between "0" "9" c || between "A" "Z" c || between "a" "z" c.

Definition is_bracket (c : ascii) : bool :=
  bool_decide (c ∈ ["("; ")"; "["; "]"; "{"; "}"]%char).

Definition token_of (c : ascii) : token :=
  if Ascii.eqb c "." then TDot
  else if Ascii.eqb c "^" then TBol
  else if Ascii.eqb c "$" then TEol
  else if Ascii.eqb c "*" then TStar
  else if Ascii.eqb c "+" then TPlus
  else if Ascii.eqb c "?" then TQuest
  else if Ascii.eqb c "|" then TBar
  else TChr c.

Fixpoint lex (s : string) : option (list token) :=
  match s with
  | EmptyString => Some []
  | String c t =>
      if Ascii.eqb c "\" then
        match t with
        | EmptyString => None
        | String e t' =>
            if is_alnum e then None else cons (TChr e) <$> lex t'
        end
      else if is_bracket c then None
      else cons (token_of c) <$> lex t
  end.

Definition atom (k : token) : option t :=
  match k with
  | TChr c => Some (Chr c)
  | TDot => Some Dot
  | TBol => Some Bol
  | TEol => Some Eol
  | _ => None
  end.

Definition quantify (k : token) (r : t) : option t :=
  match k with
  | TStar => Some (Star r)
  | TPlus => Some (Cat r (Star r))
  | TQuest => Some (Alt r Eps)
  | _ => None
  end.

(** Adds an item in front of the first branch. *)
Definition push (r : t) (branches : list (list t)) : list (list t) :=
  match branches with
  | b :: bs => (r :: b) :: bs
  | [] => [[r]]
  end.

(** The branches of an alternation, each a sequence of items. *)
Fixpoint parse (ts : list token) : option (list (list t)) :=
  match ts with
  | [] => Some [[]]
  | TBar :: ts' => cons [] <$> parse ts'
  | k :: ts' =>
      match atom k with
      | None => None
      | Some a =>
          match ts' with
          | q :: ts'' =>
              match quantify q a with
              | Some r => push r <$> parse ts''
              | None => push a <$> parse ts'
              end
          | [] => Some [[a]]
          end
      end
  end.

Definition of_branches (branches : list (list t)) : t :=
  foldr Alt Void (foldr Cat Eps <$> branches).

Definition compile (pattern : string) : option t :=
  ts ← lex pattern; of_branches <$> parse ts.

(** [$options]: none, or [i] for a match that ignores the case of ASCII
    letters. *)
Definition options (o : string) : option bool :=
  if String.eqb o "" then Some false
  else if String.eqb o "i" then Some true
  else None.

Definition lower (c : ascii) : ascii :=
  if between "A" "Z" c then ascii_of_N (N_of_ascii c + 32) else c.

Definition newline : ascii := ascii_of_N 10.

Section Matching.
Variable ci : bool.
Variable s : list ascii.

Definition chr_eq (a c : ascii) : bool :=
  if ci then Ascii.eqb (lower a) (lower c) else Ascii.eqb a c.

(** [$] holds at the end of the subject and before a newline that ends
    it. *)
Definition at_eol (i : nat) : bool :=
  Nat.eqb i (length s) ||
  (Nat.eqb (S i) (length s) && bool_decide (s !! i = Some newline)).

(** [ends r i]: the positions where a match of [r] that starts at
    position [i] of the subject can end. *)
Fixpoint ends (r : t) (i : nat) : list nat :=
  match r with
  | Void => []
  | Eps => [i]
  | Chr a =>
      match s !! i with
      | Some c => if chr_eq a c then [S i] else []
      | None => []
      end
  | Dot =>
      match s !! i with
      | Some c => if Ascii.eqb c newline then [] else [S i]
      | None => []
      end
  | Bol => if Nat.eqb i 0 then [i] else []
  | Eol => if at_eol i then [i] else []
  | Cat r1 r2 => flat_map (ends r2) (ends r1 i)
  | Alt r1 r2 => ends r1 i ++ ends r2 i
  | Star r' =>
      (fix star (fuel : nat) (i : nat) {struct fuel} : list nat :=
         i :: match fuel with
              | O => []
              | S fuel' =>
                  flat_map (star fuel')
                    (List.filter (Nat.ltb i) (ends r' i))
              end) (length s) i
  end.

(** The pattern matches somewhere in the subject. *)
Definition search (r : t) : bool :=
  existsb (fun i => negb (bool_decide (ends r i = [])))
    (seq 0 (S (length s))).
End Matching.

(** The characters with a meaning in a pattern. *)
Definition is_meta (c : ascii) : bool :=
  bool_decide (c ∈ ["\"; "."; "^"; "$"; "*"; "+"; "?"; "|"]%char)
  || is_bracket c.

(** A string without any of them. *)
Definition plain (m : string) : bool :=
  forallb (fun c => negb (is_meta c)) (list_ascii_of_string m).

(** The characters of [l] stand in the subject [t], up to the case of
    ASCII letters. *)
Fixpoint literal_at (l t : list ascii) : bool :=
  match l, t with
  | [], _ => true
  | a :: l', c :: t' => chr_eq true a c && literal_at l' t'
  | _ :: _, [] => false
  end.
End Regex.

(** Two strings are equal up to the case of ASCII letters. *)
Definition same_up_to_case (a b : string) : bool :=
  bool_decide (Regex.lower <$> list_ascii_of_string a
               = Regex.lower <$> list_ascii_of_string b).

(** ** The process state *)

(** The document store behind the module-level handle [db]: its
    collections, the next identifier it will assign, and whether it is out
    of reach (then every call on it raises an exception of the given class
    with the given message). *)
Record Database : Type := {
  db_fault : option (string * string);
  db_collections : gmap string (list Document);
  db_next_oid : N;
}.

(** What a handler can see and change outside its arguments: the handle
    [db] ([None] when it was never initialised), the environment variables,
    the reading [datetime.utcnow().isoformat()] of the clock, and the files
    under their paths together with the paths [open] refuses. *)
Record World : Type := {
  db : option Database;
  environ : gmap string string;
  utcnow_isoformat : string;
  files : gmap string (list Byte.byte);
  unwritable : gset string;
}.

Definition set_db (d : Database) (w : World) : World :=
  {| db := Some d; environ := environ w;
     utcnow_isoformat := utcnow_isoformat w;
     files := files w; unwritable := unwritable w |}.

Definition set_files (f : gmap string (list Byte.byte)) (w : World) : World :=
  {| db := db w; environ := environ w;
     utcnow_isoformat := utcnow_isoformat w;
     files := f; unwritable := unwritable w |}.

(** A handler: it returns or raises, and leaves a state behind either
    way. *)
Definition M (A : Type) : Type := World → Result A * World.

#[export] Instance M_ret : MRet M := fun A a w => (Ok a, w).
#[export] Instance M_bind : MBind M := fun A B f m w =>
  match m w with
  | (Ok a, w') => f a w'
  | (Raise e, w') => (Raise e, w')
  end.

Definition raise {A} (e : Exception) : M A := fun w => (Raise e, w).

Definition lift {A} (r : Result A) : M A := fun w => (r, w).

(** [os.getenv(name)] *)
Definition getenv (name : string) (w : World) : option string :=
  environ w !! name.

(** [str(e)] *)
Definition exc_str (e : Exception) : string :=
  match e with
  | HTTPException status_code detail => pretty status_code +:+ ": " +:+ detail
  | ValidationError loc => loc
  | PyError _ msg => msg
  end.

(** ** The persistence gateway *)

Definition collection (d : Database) (name : string) : list Document :=
  default [] (db_collections d !! name).

(** The handle of a store that can be used, or the exception of one that
    cannot. *)
Definition connect (w : World) : Result Database :=
  match db w with
  | None => Raise (PyError "Exception" "Database not available")
  | Some d =>
      match db_fault d with
      | Some (cls, msg) => Raise (PyError cls msg)
      | None => Ok d
      end
  end.

(** The record the gateway stores for [data] under the identifier [oid]. *)
Definition stored {T} `{BaseModel T} (data : T) (oid : N) : Document :=
  {| doc_id := Some (IdObject oid); doc_fields := model_dump data |}.

(** The store after one more record in a collection. *)
Definition with_record (collection_name : string) (doc : Document)
  (d : Database) : Database :=
  {| db_fault := db_fault d;
     db_collections :=
       <[collection_name := (collection d collection_name ++ [doc])%list]>
         (db_collections d);
     db_next_oid := N.succ (db_next_oid d) |}.

(** Modelled from the spec: [create_document] of database.py, which is
    imported by main.py and is not among the sources. "insert(
    collectionName, record) -> generatedId: serializes record (excluding
    any internal identifier) and writes it; returns an opaque string
    identifier assigned by the store"; "if the store is unreachable,
    operations fail with a ConnectionError". *)
Definition create_document {T} `{BaseModel T} (collection_name : string)
  (data : T) : M string := fun w =>
  match connect w with
  | Raise e => (Raise e, w)
  | Ok d =>
      let oid := db_next_oid d in
      (Ok (id_str (IdObject oid)),
       set_db (with_record collection_name (stored data oid) d) w)
  end.

(** A condition of a filter, once read. *)
Inductive Condition : Type :=
  | CondEq (s : string)
  | CondRegex (r : Regex.t) (ci : bool).

Definition bad_query {A} : Result A :=
  Raise (PyError "OperationFailure" "query outside the supported fragment").

(** A filter value is a string, matched exactly, or a mapping with
    [$regex] and [$options]. *)
Definition read_condition (c : Value) : Result Condition :=
  match c with
  | VStr s => Ok (CondEq s)
  | VDict d =>
      match d !! "$regex", default (VStr "") (d !! "$options") with
      | Some (VStr pattern), VStr o =>
          match Regex.compile pattern, Regex.options o with
          | Some r, Some ci => Ok (CondRegex r ci)
          | _, _ => bad_query
          end
      | _, _ => bad_query
      end
  | _ => bad_query
  end.

Definition read_filter (filter_dict : Dict)
  : Result (list (string * Condition)) :=
  mapM (fun kv => pair kv.1 <$> read_condition kv.2) (map_to_list filter_dict).

Definition holds (c : Condition) (field : option Value) : bool :=
  match c, field with
  | CondEq s, Some (VStr s') => String.eqb s s'
  | CondRegex r ci, Some (VStr s') =>
      Regex.search ci (list_ascii_of_string s') r
  | _, _ => false
  end.

Definition selects (q : list (string * Condition)) (doc : Document) : bool :=
  forallb (fun kc => holds kc.2 (doc_fields doc !! kc.1)) q.

(** Modelled from the spec: [get_documents] of database.py, not among the
    sources. "find(collectionName, filter, limit?) -> sequence of raw
    records: filter is a mapping of field name to exact-match or [...]
    pattern [...]; results preserve store iteration order". *)
Definition get_documents (collection_name : string) (filter_dict : Dict)
  (limit : option nat) : M (list Document) := fun w =>
  match connect w with
  | Raise e => (Raise e, w)
  | Ok d =>
      match read_filter filter_dict with
      | Raise e => (Raise e, w)
      | Ok q =>
          let found := List.filter (selects q) (collection d collection_name) in
          (Ok (match limit with Some n => take n found | None => found end), w)
      end
  end.

(** [db.list_collection_names()] *)
Definition list_collection_names (d : Database) : Result (list string) :=
  match db_fault d with
  | Some (cls, msg) => Raise (PyError cls msg)
  | None => Ok (map_to_list (db_collections d)).*1
  end.

(** ** The handlers of main.py *)

(** The response [{"ok": True, "id": id}]. *)
Definition ok_response (id : string) : Dict :=
  list_to_map [("ok", VBool true); ("id", VStr id)].

(** [read_root] *)
Definition read_root : M Dict :=
  mret {[ "message" := VStr "Black Label Luxury Rentals API running" ]}.

(** Statements that update the local mapping [response] of
    [test_database]; an update made before an exception stays. *)
Definition Stmt (A : Type) : Type := Dict → Result A * Dict.

#[export] Instance Stmt_ret : MRet Stmt := fun A a response => (Ok a, response).
#[export] Instance Stmt_bind : MBind Stmt := fun A B f m response =>
  match m response with
  | (Ok a, response') => f a response'
  | (Raise e, response') => (Raise e, response')
  end.

(** [response[key] = v] *)
Definition assign (key : string) (v : Value) : Stmt unit := fun response =>
  (Ok (), <[key := v]> response).

(** A call that returns or raises. *)
Definition call {A} (r : Result A) : Stmt A := fun response => (r, response).

(** [try: body except Exception as e: handler] *)
Definition try_except (body : Stmt unit) (handler : Exception → Stmt unit)
  : Stmt unit := fun response =>
  match body response with
  | (Ok u, response') => (Ok u, response')
  | (Raise e, response') => handler e response'
  end.

(** [test_database], the diagnostics of [GET /test]. *)
Definition test_database : M Dict := fun w =>
  let response : Dict :=
    list_to_map [
      ("backend", VStr "✅ Running");
      ("database", VStr "❌ Not Available");
      ("database_url", VNone);
      ("database_name", VNone);
      ("connection_status", VStr "Not Connected");
      ("collections", VList [])
    ] in
  let body : Stmt unit :=
    try_except
      match db w with
      | Some d =>
          assign "database" (VStr "✅ Available") ;;
          assign "database_url"
            (VStr (if truthy_str (getenv "DATABASE_URL" w)
                   then "✅ Set" else "❌ Not Set")) ;;
          assign "database_name"
            (VStr (str_or (getenv "DATABASE_NAME" w) "❌ Not Set")) ;;
          try_except
            (collections ← call (list_collection_names d);
             assign "collections" (str_list (take 10 collections)) ;;
             assign "database" (VStr "✅ Connected & Working") ;;
             assign "connection_status" (VStr "Connected"))
            (fun e =>
               assign "database"
                 (VStr ("⚠️ Connected but Error: "
                        +:+ py_prefix 80 (exc_str e))))
      | None => assign "database" (VStr "⚠️ Available but not initialized")
      end
      (fun e =>
         assign "database" (VStr ("❌ Error: " +:+ py_prefix 80 (exc_str e))))
  in
  match body response with
  | (Ok _, response') => (Ok response', w)
  | (Raise e, _) => (Raise e, w)
  end.

(** [if it.get("_id"): it["_id"] = str(it["_id"])] *)
Definition stringify_id (it : Document) : Document :=
  match doc_id it with
  | Some i =>
      if id_truthy i
      then {| doc_id := Some (IdStr (id_str i)); doc_fields := doc_fields it |}
      else it
  | None => it
  end.

(** The mapping [filters] of [list_vehicles]. *)
Definition vehicle_filters (make type drive_mode : option string) : Dict :=
  let filters : Dict := ∅ in
  let filters :=
    if truthy_str make
    then <["make" := VDict (list_to_map [
             ("$regex", VStr ("^" +:+ default "" make +:+ "$"));
             ("$options", VStr "i")])]> filters
    else filters in
  let filters :=
    if truthy_str type
    then <["type" := VStr (default "" type)]> filters
    else filters in
  let filters :=
    if truthy_str drive_mode
    then <["drive_mode" := VStr (default "" drive_mode)]> filters
    else filters in
  filters.

(** [list_vehicles] *)
Definition list_vehicles (make type drive_mode : option string)
  : M (list Document) :=
  items ← get_documents "vehicle" (vehicle_filters make type drive_mode) None;
  mret (stringify_id <$> items).

(** [get_vehicle] *)
Definition get_vehicle (slug : string) : M Document :=
  res ← get_documents "vehicle" {[ "slug" := VStr slug ]} (Some 1);
  match res with
  | [] => raise (HTTPException 404 "Vehicle not found")
  | it :: _ => mret (stringify_id it)
  end.

(** What a route declared with [response_model=Vehicle] does with the
    record its handler returned: the record is validated against
    [Vehicle], which reads the fields of the class and no other key, and
    the response is the [dict] of the validated record, so a key that is
    not a field of the class, [_id] among them, is not in the response. A
    record that does not validate is an error of the server. *)
Definition serialize_vehicle `{Coercion} (it : Document) : Result Dict :=
  match Vehicle.validate (doc_fields it) with
  | Ok v => Ok (model_dump v)
  | Raise (ValidationError loc) =>
      Raise (PyError "ResponseValidationError" loc)
  | Raise e => Raise e
  end.

(** [GET /api/vehicles/{slug}], with [response_model=Vehicle]: the handler
    runs, then what it returned is serialised. *)
Definition get_vehicles_slug `{Coercion} (slug : string) : M Dict :=
  it ← get_vehicle slug;
  lift (serialize_vehicle it).

(** The mapping under [contact] in the payload of a lead. *)
Definition contact_of (lead : QuoteRequest.t) : Dict :=
  list_to_map [
    ("first_name", VStr (QuoteRequest.first_name lead));
    ("last_name", VStr (QuoteRequest.last_name lead));
    ("email", VStr (QuoteRequest.email lead));
    ("phone", VStr (QuoteRequest.phone lead));
    ("preferred_contact", VStr (QuoteRequest.preferred_contact lead))
  ].

(** The payload of the stored lead: the fields of the request's payload,
    then [contact], then [received_at]. *)
Definition lead_payload (lead : QuoteRequest.t) (now : string) : Dict :=
  <["received_at" := VStr now]>
    (<["contact" := VDict (contact_of lead)]>
       (model_dump (QuoteRequest.payload lead))).

(** [create_lead] *)
Definition create_lead (lead : QuoteRequest.t) : M Dict :=
  now ← (fun w => (Ok (utcnow_isoformat w), w));
  data ← lift (Lead.validate (list_to_map [
            ("source", VStr "web");
            ("form_type", VStr "quote");
            ("payload", VDict (lead_payload lead now))]));
  _id ← create_document "lead" data;
  mret (ok_response _id).

(** [submit_booking] *)
Definition submit_booking (booking : Booking.t) : M Dict :=
  if bool_decide (Booking.drive_mode booking = Some "self-drive")
     && negb (Booking.driver_age_confirmed booking)
  then raise (HTTPException 400 "Driver age must be confirmed for self-drive")
  else
    _id ← create_document "booking" booking;
    mret (ok_response _id).

(** [POST /api/bookings]: the body is validated against [Booking] before
    the handler runs. *)
Definition post_bookings `{Coercion} (body : Dict) : M Dict :=
  booking ← lift (Booking.validate body);
  submit_booking booking.

(** [POST /api/lead]: the body is validated against [QuoteRequest] before
    the handler runs. *)
Definition post_lead `{Coercion} (body : Dict) : M Dict :=
  lead ← lift (QuoteRequest.validate body);
  create_lead lead.

Module UploadFile.
Record t : Type := {
  filename : option string;
  contents : list Byte.byte;
}.
End UploadFile.

(** [with open(path, "wb") as f: f.write(data)] *)
Definition write_file (path : string) (data : list Byte.byte) : M unit :=
  fun w =>
    if bool_decide (path ∈ unwritable w)
    then (Raise (PyError "OSError" path), w)
    else (Ok (), set_files (<[path := data]> (files w)) w).

(** [upload_file] *)
Definition upload_file (file : UploadFile.t) : M Dict :=
  let contents := UploadFile.contents file in
  let filename := str_or (UploadFile.filename file) "upload.bin" in
  let temp_path := "/tmp/" +:+ filename in
  _ ← write_file temp_path contents;
  mret {[ "url" := VStr ("https://files.local/" +:+ filename) ]}.

(** ** Runs of writes *)

(** One write through the gateway, of a record of any class into any
    collection, with the identifier it returned. *)
Inductive write_step : World → string → World → Prop :=
  | Write_step (T : Type) (MT : BaseModel T) (collection_name : string)
      (data : T) (w w' : World) (id : string) :
      create_document collection_name data w = (Ok id, w') →
      write_step w id w'.

(** Successive writes and the identifiers they returned, in order. *)
Inductive write_run : World → list string → World → Prop :=
  | Run_nil (w : World) : write_run w [] w
  | Run_cons (w w' w'' : World) (id : string) (ids : list string) :
      write_step w id w' → write_run w' ids w'' →
      write_run w (id :: ids) w''.

(** The field [key] of the record is the string [s]. *)
Definition has_str (key s : string) (doc : Document) : bool :=
  holds (CondEq s) (doc_fields doc !! key).

(** The condition [list_vehicles] builds for a make. *)
Definition make_condition (make : string) : Value :=
  VDict (list_to_map [
    ("$regex", VStr ("^" +:+ make +:+ "$"));
    ("$options", VStr "i")]).

(** The make of the record is [make] up to the case of ASCII letters, or
    that followed by one newline. *)
Definition make_is (make : string) (doc : Document) : bool :=
  match doc_fields doc !! "make" with
  | Some (VStr v) =>
      same_up_to_case v make
      || same_up_to_case v (make +:+ String Regex.newline "")
  | _ => false
  end.

(** The identifier the store will assign next. *)
Definition next_oid (w : World) : N :=
  match db w with
  | Some d => db_next_oid d
  | None => 0%N
  end.

(** The lead that [create_lead] builds for a request at a given reading of
    the clock. *)
Definition lead_of (lead : QuoteRequest.t) (now : string) : Lead.t :=
  {| Lead.source := "web"; Lead.form_type := "quote";
     Lead.payload := lead_payload lead now; Lead.status := "new" |}.

(** The condition under which [submit_booking] refuses a booking. *)
Definition unconfirmed_self_drive (booking : Booking.t) : Prop :=
  Booking.drive_mode booking = Some "self-drive" ∧
  Booking.driver_age_confirmed booking = false.

(** What [list_vehicles] asks of a record: each parameter that is given
    and not empty must agree with the record's field, the type and the
    drive mode exactly, the make up to the case of ASCII letters and up to
    one newline at the end of the stored make (see [make_is]). *)
Definition vehicle_wanted (make type drive_mode : option string)
  (doc : Document) : bool :=
  (if truthy_str make then make_is (default "" make) doc else true)
  && (if truthy_str type
      then has_str "type" (default "" type) doc else true)
  && (if truthy_str drive_mode
      then has_str "drive_mode" (default "" drive_mode) doc else true).

(** The identifier of a record is missing or a [str]. *)
Definition id_is_str (doc : Document) : Prop :=
  match doc_id doc with
  | Some (IdObject _) => False
  | _ => True
  end.

(** ** Sample data *)

(** A store in reach with no record yet, an empty environment and no
    file. *)
Definition empty_db : Database :=
  {| db_fault := None; db_collections := ∅; db_next_oid := 0 |}.

Definition empty_world : World :=
  {| db := Some empty_db; environ := ∅;
     utcnow_isoformat := "2024-05-01T12:00:00"; files := ∅;
     unwritable := ∅ |}.

Definition sample_vehicle (slug make : string) (year : Z) : Vehicle.t :=
  {| Vehicle.slug := slug; Vehicle.year := year; Vehicle.make := make;
     Vehicle.model := "Roma"; Vehicle.trim := None;
     Vehicle.type := "supercar"; Vehicle.drive_mode := "both";
     Vehicle.price_per_day := S754_zero false;
     Vehicle.price_per_week := None;
     Vehicle.mileage_limit_per_day := 100%Z;
     Vehicle.overage_fee_per_mile := S754_zero false;
     Vehicle.security_deposit := 5000%Z;
     Vehicle.transmission := None; Vehicle.drivetrain := None;
     Vehicle.seats := Some 2%Z; Vehicle.color := None;
     Vehicle.horsepower := None; Vehicle.torque := None;
     Vehicle.zero_to_60 := None; Vehicle.features := [];
     Vehicle.images := []; Vehicle.video_url := None; Vehicle.tags := [];
     Vehicle.available := true; Vehicle.availability_notes := None |}.

(** The state a handler leaves behind. *)
Definition after {A} (m : M A) (w : World) : World := (m w).2.

(** One request to a handler that writes: a lead, a booking or an upload,
    accepted or not, and the state it leaves. *)
Inductive write_request : World → World → Prop :=
  | Request_lead (lead : QuoteRequest.t) (w : World) :
      write_request w (after (create_lead lead) w)
  | Request_booking (booking : Booking.t) (w : World) :
      write_request w (after (submit_booking booking) w)
  | Request_upload (file : UploadFile.t) (w : World) :
      write_request w (after (upload_file file) w).

(** Two vehicles written one after the other under the same slug. *)
Definition roma_2020 : Vehicle.t := sample_vehicle "roma" "Ferrari" 2020.
Definition roma_2021 : Vehicle.t := sample_vehicle "roma" "Ferrari" 2021.
Definition same_slug_world : World :=
  after (create_document "vehicle" roma_2021)
    (after (create_document "vehicle" roma_2020) empty_world).

Definition sample_booking (drive_mode : option string) (confirmed : bool)
  : Booking.t :=
  {| Booking.vehicle_id := "000000000000000000000000";
     Booking.first_name := "Ada"; Booking.last_name := "Byron";
     Booking.email := "ada@example.com"; Booking.phone := "123";
     Booking.preferred_contact := "whatsapp";
     Booking.start_date := "2024-06-01"; Booking.end_date := "2024-06-03";
     Booking.delivery_location := None; Booking.occasion := None;
     Booking.driver_age_confirmed := confirmed;
     Booking.license_upload_url := None;
     Booking.insurance_upload_url := None;
     Booking.selfie_upload_url := None;
     Booking.drive_mode := drive_mode; Booking.addons := [];
     Booking.notes := None; Booking.status := "new" |}.

(** The body of a booking request that leaves out every field with a
    default, [status] among them. *)
Definition sample_booking_body : Dict :=
  list_to_map [
    ("vehicle_id", VStr "000000000000000000000000");
    ("first_name", VStr "Ada");
    ("last_name", VStr "Byron");
    ("email", VStr "ada@example.com");
    ("phone", VStr "123");
    ("start_date", VStr "2024-06-01");
    ("end_date", VStr "2024-06-03")
  ].

Definition sample_quote : QuoteRequest.t :=
  {| QuoteRequest.first_name := "A"; QuoteRequest.last_name := "B";
     QuoteRequest.email := "a@b.com"; QuoteRequest.phone := "123";
     QuoteRequest.preferred_contact := "whatsapp";
     QuoteRequest.payload :=
       {| QuotePayload.vehicle_slug := Some "x";
          QuotePayload.vehicle_id := None;
          QuotePayload.drive_mode := None;
          QuotePayload.start_date := None;
          QuotePayload.end_date := None;
          QuotePayload.delivery_location := None;
          QuotePayload.occasion := None;
          QuotePayload.addons := None;
          QuotePayload.utm := None |} |}.

(** A store with two vehicles, of make "ferrari" and "Ferrari-adjacent". *)
Definition makes_world : World :=
  after (create_document "vehicle"
           (sample_vehicle "adjacent" "Ferrari-adjacent" 2021))
    (after (create_document "vehicle" (sample_vehicle "roma" "ferrari" 2020))
       empty_world).

(** The makes of the vehicles a handler returned. *)
Definition makes_of (r : Result (list Document) * World)
  : Result (list (option Value)) :=
  match r.1 with
  | Ok items => Ok ((fun it => doc_fields it !! "make") <$> items)
  | Raise e => Raise e
  end.

(** A raw vehicle payload, with the given year. *)
Definition sample_vehicle_body (year : Z) : Dict :=
  list_to_map [
    ("slug", VStr "roma");
    ("year", VInt year);
    ("make", VStr "Ferrari");
    ("model", VStr "Roma");
    ("type", VStr "supercar");
    ("price_per_day", VFloat (S754_zero false));
    ("mileage_limit_per_day", VInt 100);
    ("overage_fee_per_mile", VFloat (S754_zero false));
    ("security_deposit", VInt 5000);
    ("seats", VInt 2)
  ].


(** A store with three vehicles of one make in different cases, of two
    types. *)
Definition typed_vehicle (slug make type : string) : Vehicle.t :=
  {| Vehicle.slug := slug; Vehicle.year := 2022%Z; Vehicle.make := make;
     Vehicle.model := "Urus"; Vehicle.trim := None;
     Vehicle.type := type; Vehicle.drive_mode := "both";
     Vehicle.price_per_day := S754_zero false;
     Vehicle.price_per_week := None;
     Vehicle.mileage_limit_per_day := 100%Z;
     Vehicle.overage_fee_per_mile := S754_zero false;
     Vehicle.security_deposit := 5000%Z;
     Vehicle.transmission := None; Vehicle.drivetrain := None;
     Vehicle.seats := None; Vehicle.color := None;
     Vehicle.horsepower := None; Vehicle.torque := None;
     Vehicle.zero_to_60 := None; Vehicle.features := [];
     Vehicle.images := []; Vehicle.video_url := None; Vehicle.tags := [];
     Vehicle.available := true; Vehicle.availability_notes := None |}.

Definition fleet_world : World :=
  after (create_document "vehicle" (typed_vehicle "c" "Lamborghini" "SUV"))
    (after (create_document "vehicle" (typed_vehicle "b" "LAMBORGHINI" "suv"))
       (after (create_document "vehicle"
                 (typed_vehicle "a" "lamborghini" "supercar"))
          empty_world)).

(** The slugs of the vehicles a handler returned. *)
Definition slugs_of (r : Result (list Document) * World)
  : Result (list (option Value)) :=
  match r.1 with
  | Ok items => Ok ((fun it => doc_fields it !! "slug") <$> items)
  | Raise e => Raise e
  end.


(** The store is out of reach: every call on it times out. *)
Definition down_world : World :=
  {| db := Some {| db_fault := Some ("ServerSelectionTimeoutError",
                                     "localhost:27017: connection refused");
                   db_collections := ∅; db_next_oid := 0 |};
     environ := ∅; utcnow_isoformat := "2024-05-01T12:00:00";
     files := ∅; unwritable := ∅ |}.

(** Runs a validation that succeeded backwards: one equation per field. *)
Ltac invert_validate H :=
  unfold mbind, Result_bind in H;
  repeat match type of H with
         | match ?r with _ => _ end = Ok _ =>
             let a := fresh "a" in
             let Hf := fresh "Hfield" in
             destruct r as [a|?] eqn:Hf; [|discriminate H]
         end;
  injection H as <-.

(** Runs a validation that failed backwards: the field that failed. *)
Ltac invert_validate_raise H Hreq Hdef :=
  unfold mbind, Result_bind in H;
  repeat match type of H with
         | match ?r with _ => _ end = Raise _ =>
             let Hf := fresh "Hfield" in
             destruct r eqn:Hf;
               [|injection H as <-;
                 first [apply Hreq in Hf | apply Hdef in Hf]; eauto]
         end;
  try discriminate H.

(** The fields of [Booking] without a default. *)
Definition booking_required_keys : list string :=
  ["vehicle_id"; "first_name"; "last_name"; "email"; "phone"; "start_date";
   "end_date"].


(** Bodies of booking requests: for a self-drive booking that says nothing
    about the driver's age, and for a booking that arrives as approved. *)
Definition self_drive_body : Dict :=
  <["drive_mode" := VStr "self-drive"]> sample_booking_body.

Definition approved_body : Dict :=
  <["status" := VStr "approved"]> sample_booking_body.

Definition approved_booking : Booking.t :=
  {| Booking.vehicle_id := "000000000000000000000000";
     Booking.first_name := "Ada"; Booking.last_name := "Byron";
     Booking.email := "ada@example.com"; Booking.phone := "123";
     Booking.preferred_contact := "whatsapp";
     Booking.start_date := "2024-06-01"; Booking.end_date := "2024-06-03";
     Booking.delivery_location := None; Booking.occasion := None;
     Booking.driver_age_confirmed := false;
     Booking.license_upload_url := None;
     Booking.insurance_upload_url := None;
     Booking.selfie_upload_url := None;
     Booking.drive_mode := None; Booking.addons := [];
     Booking.notes := None; Booking.status := "approved" |}.

(** The body of a lead request with one payload field and no preferred
    contact. *)
Definition sample_quote_body : Dict :=
  list_to_map [
    ("first_name", VStr "A");
    ("last_name", VStr "B");
    ("email", VStr "a@b.com");
    ("phone", VStr "123");
    ("payload", VDict (list_to_map [
        ("vehicle_slug", VStr "x");
        ("campaign", VStr "spring")]))
  ].

(** A state whose environment names the store. *)
Definition configured_world : World :=
  {| db := Some empty_db;
     environ := list_to_map [("DATABASE_URL", "mongodb://localhost:27017");
                             ("DATABASE_NAME", "rentals")];
     utcnow_isoformat := "2024-05-01T12:00:00"; files := ∅;
     unwritable := ∅ |}.

(** The names of the fields of [Booking]. *)
Definition booking_field_names : list string :=
  ["vehicle_id"; "first_name"; "last_name"; "email"; "phone";
   "preferred_contact"; "start_date"; "end_date"; "delivery_location";
   "occasion"; "driver_age_confirmed"; "license_upload_url";
   "insurance_upload_url"; "selfie_upload_url"; "drive_mode"; "addons";
   "notes"; "status"].

(** The request with another preferred contact. *)
Definition with_preferred_contact (s : string) (lead : QuoteRequest.t)
  : QuoteRequest.t :=
  {| QuoteRequest.first_name := QuoteRequest.first_name lead;
     QuoteRequest.last_name := QuoteRequest.last_name lead;
     QuoteRequest.email := QuoteRequest.email lead;
     QuoteRequest.phone := QuoteRequest.phone lead;
     QuoteRequest.preferred_contact := s;
     QuoteRequest.payload := QuoteRequest.payload lead |}.

(** A raw testimonial with the given rating. *)
Definition sample_testimonial_body (rating : Z) : Dict :=
  list_to_map [
    ("author_name", VStr "Ada");
    ("quote", VStr "Flawless");
    ("rating", VInt rating)
  ].

(** What the conversions of the validation library are taken to do on a
    value that already has the type asked for: they return it as it is;
    and a URL they returned is returned again when it comes back as a
    string. *)
Class CoercionLaws (C : Coercion) : Prop := {
  as_int_int : ∀ z, as_int (VInt z) = Some z;
  as_float_float : ∀ f, as_float (VFloat f) = Some f;
  as_str_str : ∀ s, as_str (VStr s) = Some s;
  as_bool_bool : ∀ b, as_bool (VBool b) = Some b;
  as_url_again : ∀ x u, as_url x = Some u → as_url (VStr u) = Some u;
}.

(** A validator accepts again, and unchanged, what it returned, once
    written back as a raw value by [f]. *)
Class Stable {A} (p : Validator A) (f : A → Value) : Prop :=
  stable : ∀ x a, p x = Some a → p (f a) = Some a.

(** [f] never writes [None]. *)
Class NeverNone {A} (f : A → Value) : Prop :=
  never_none : ∀ a, f a ≠ VNone.

(** Validates the dump of a record field by field, from the equations of
    the validation that gave the record. *)
Ltac validate_again Hreq Hdef Hbool :=
  repeat match goal with
         | Hf : required ?raw ?n ?p = Ok ?a
           |- context [required ?d ?n ?p] =>
             rewrite (Hreq _ raw d n p _ a _ Hf) by reflexivity
         | Hf : with_default ?raw ?n ?p ?dflt = Ok ?a
           |- context [with_default ?d ?n ?p ?dflt] =>
             rewrite (Hdef _ raw d n p _ dflt a _ Hf)
               by first [reflexivity | apply Hbool]
         end.

(** The fields of [QuoteRequest] without a default. *)
Definition quote_required_keys : list string :=
  ["first_name"; "last_name"; "email"; "phone"; "payload"].

(** * Properties *)

(** ** Strings and identifiers *)

Lemma py_len_prefix (n : nat) (s : string) : py_len (py_prefix n s) ≤ n.
Proof.
  revert n; induction s as [|c t IH]; intros n; simpl; [lia|].
  destruct (is_continuation c) eqn:Hc; simpl.
  - rewrite Hc. apply IH.
  - destruct n as [|n']; simpl; [lia|].
    rewrite Hc. specialize (IH n'). lia.
Qed.

Lemma py_prefix_short (n : nat) (s : string) :
  py_len s ≤ n → py_prefix n s = s.
Proof.
  revert n; induction s as [|c t IH]; intros n; simpl; [done|].
  destruct (is_continuation c); intros Hn.
  - by rewrite IH.
  - destruct n as [|n']; [lia|]. rewrite IH; [done|lia].
Qed.

Lemma uint_of_zeros (k : nat) (s : string) :
  N.of_hex_uint <$> NilEmpty.uint_of_string (zeros k +:+ s)
  = N.of_hex_uint <$> NilEmpty.uint_of_string s.
Proof.
  induction k as [|k IH]; simpl; [done|].
  rewrite <- IH.
  by destruct (NilEmpty.uint_of_string (zeros k +:+ s)).
Qed.

(** The identifier can be read back from its string form. *)
Lemma oid_hex_decode (oid : N) :
  N.of_hex_uint <$> NilEmpty.uint_of_string (oid_hex oid) = Some oid.
Proof.
  unfold oid_hex. rewrite uint_of_zeros.
  pose proof (Unsigned.of_to oid) as Hoid.
  unfold NilZero.string_of_uint.
  destruct (N.to_hex_uint oid) eqn:E;
    try (rewrite <- E, NilEmpty.usu; simpl; by rewrite E, Hoid).
  simpl in *. by subst.
Qed.

Lemma oid_hex_inj (a b : N) : oid_hex a = oid_hex b → a = b.
Proof.
  intros Hab. pose proof (oid_hex_decode a) as Ha.
  rewrite Hab, oid_hex_decode in Ha. congruence.
Qed.

Lemma oid_hex_nonempty (oid : N) : oid_hex oid ≠ "".
Proof.
  intros Hempty. pose proof (oid_hex_decode oid) as Hd.
  rewrite Hempty in Hd. simpl in Hd.
  injection Hd as <-. by vm_compute in Hempty.
Qed.

(** ** The gateway *)

Lemma connect_inv (w : World) (d : Database) :
  connect w = Ok d → db w = Some d ∧ db_fault d = None.
Proof.
  unfold connect. destruct (db w) as [d'|]; [|done].
  destruct (db_fault d') as [[cls msg]|] eqn:Hf; [done|].
  intros [= <-]. done.
Qed.

Lemma connect_raises (w : World) (e : Exception) :
  connect w = Raise e → ∃ cls msg, e = PyError cls msg.
Proof.
  unfold connect. destruct (db w) as [d|]; [|intros [= <-]; eauto].
  destruct (db_fault d) as [[cls msg]|]; [|done].
  intros [= <-]; eauto.
Qed.

Lemma connect_with_record (w : World) (d : Database) (c : string)
  (doc : Document) :
  connect w = Ok d →
  connect (set_db (with_record c doc d) w) = Ok (with_record c doc d).
Proof.
  intros [_ Hf]%connect_inv. unfold connect. simpl. by rewrite Hf.
Qed.

Lemma create_document_ok {T} `{BaseModel T} (c : string) (x : T) (w : World)
  (d : Database) :
  connect w = Ok d →
  create_document c x w
  = (Ok (oid_hex (db_next_oid d)),
     set_db (with_record c (stored x (db_next_oid d)) d) w).
Proof. intros Hd. unfold create_document. by rewrite Hd. Qed.

Lemma create_document_raises {T} `{BaseModel T} (c : string) (x : T)
  (w : World) (e : Exception) :
  connect w = Raise e → create_document c x w = (Raise e, w).
Proof. intros Hd. unfold create_document. by rewrite Hd. Qed.

Lemma create_document_inv {T} `{BaseModel T} (c : string) (x : T)
  (w w' : World) (id : string) :
  create_document c x w = (Ok id, w') →
  ∃ d, connect w = Ok d ∧ id = oid_hex (db_next_oid d) ∧
       w' = set_db (with_record c (stored x (db_next_oid d)) d) w.
Proof.
  unfold create_document. destruct (connect w) as [d|e] eqn:Hd; [|done].
  intros [= <- <-]. eauto.
Qed.

Lemma collection_with_record_eq (c : string) (doc : Document) (d : Database) :
  collection (with_record c doc d) c = (collection d c ++ [doc])%list.
Proof. unfold collection at 1. simpl. by rewrite lookup_insert_eq. Qed.

Lemma collection_with_record_ne (c c' : string) (doc : Document)
  (d : Database) :
  c ≠ c' → collection (with_record c doc d) c' = collection d c'.
Proof. intros Hne. unfold collection. simpl. by rewrite lookup_insert_ne. Qed.

Lemma read_filter_slug (s : string) :
  read_filter {[ "slug" := VStr s ]} = Ok [("slug", CondEq s)].
Proof. unfold read_filter. by rewrite map_to_list_singleton. Qed.

Lemma selects_slug (s : string) (doc : Document) :
  selects [("slug", CondEq s)] doc = has_str "slug" s doc.
Proof. unfold selects, has_str. simpl. by rewrite andb_true_r. Qed.

Lemma get_documents_slug (s : string) (w : World) (d : Database) :
  connect w = Ok d →
  get_documents "vehicle" {[ "slug" := VStr s ]} (Some 1) w
  = (Ok (take 1 (List.filter (has_str "slug" s) (collection d "vehicle"))), w).
Proof.
  intros Hd. unfold get_documents. rewrite Hd, read_filter_slug.
  do 3 f_equal. apply List.filter_ext, selects_slug.
Qed.

Lemma get_documents_raises (c : string) (f : Dict) (limit : option nat)
  (w : World) (e : Exception) :
  (get_documents c f limit w).1 = Raise e → ∃ cls msg, e = PyError cls msg.
Proof.
  unfold get_documents. destruct (connect w) as [d|e'] eqn:Hd.
  - destruct (read_filter f) as [q|e''] eqn:Hq; [done|].
    simpl. intros [= <-]. revert Hq. unfold read_filter.
    generalize (map_to_list f). intros l. revert e''.
    induction l as [|[k v] l IH]; intros e''; [done|].
    simpl. unfold read_condition, bad_query.
    repeat (case_match; simpl; try done; try (intros [= <-]; eauto)).
    all: destruct (mapM _ l) eqn:Hm; simpl; try done.
    all: intros [= <-]; by eapply IH.
  - simpl. intros [= <-]. by eapply connect_raises.
Qed.

Lemma get_documents_state (c : string) (f : Dict) (limit : option nat)
  (w : World) : (get_documents c f limit w).2 = w.
Proof.
  unfold get_documents. destruct (connect w); [|done].
  by destruct (read_filter f).
Qed.

Lemma take_1_nil {A} (l : list A) : take 1 l = [] ↔ l = [].
Proof. by destruct l. Qed.

Lemma filter_nil_iff {A} (p : A → bool) (l : list A) :
  List.filter p l = [] ↔ ∀ x, x ∈ l → p x = false.
Proof.
  induction l as [|a l IH]; simpl.
  - split; [|done]. intros _ x Hx. by apply elem_of_nil in Hx.
  - destruct (p a) eqn:Ha.
    + split; [done|]. intros Hall. specialize (Hall a (list_elem_of_here _ _)).
      congruence.
    + rewrite IH. split.
      * intros Hall x [->|Hx]%elem_of_cons; auto.
      * intros Hall x Hx. apply Hall. by right.
Qed.

(** ** Reading a vehicle by its slug *)

Lemma get_vehicle_run (slug : string) (w : World) :
  get_vehicle slug w
  = (match (get_documents "vehicle" {[ "slug" := VStr slug ]} (Some 1) w).1 with
     | Raise e => Raise e
     | Ok [] => Raise (HTTPException 404 "Vehicle not found")
     | Ok (it :: _) => Ok (stringify_id it)
     end, w).
Proof.
  unfold get_vehicle, mbind, M_bind.
  pose proof (get_documents_state "vehicle" {[ "slug" := VStr slug ]}
                (Some 1) w) as Hw.
  destruct (get_documents _ _ _ w) as [[[|it res]|e] w']; simpl in *;
    by subst.
Qed.

Lemma get_vehicle_found (slug : string) (w : World) (d : Database) :
  connect w = Ok d →
  get_vehicle slug w
  = (match take 1 (List.filter (has_str "slug" slug) (collection d "vehicle")) with
     | [] => Raise (HTTPException 404 "Vehicle not found")
     | it :: _ => Ok (stringify_id it)
     end, w).
Proof.
  intros Hd. by rewrite get_vehicle_run, (get_documents_slug slug w d Hd).
Qed.

(** C3: [get_vehicle] asks the gateway for the collection "vehicle" with
    the filter that maps "slug" to the slug, exactly, and limit 1; it
    raises the 404 exception if and only if the query returns no result,
    and otherwise returns the first result (its identifier in string
    form). On a store in reach the query returns the first stored vehicle
    whose slug is the given string, so the 404 is raised exactly when no
    stored vehicle has that slug. *)
Theorem get_vehicle_not_found_iff_no_result (slug : string) (w : World) :
  let query := get_documents "vehicle" {[ "slug" := VStr slug ]} (Some 1) w in
  get_vehicle slug w
  = (match query.1 with
     | Raise e => Raise e
     | Ok [] => Raise (HTTPException 404 "Vehicle not found")
     | Ok (it :: _) => Ok (stringify_id it)
     end, w)
  ∧ ((get_vehicle slug w).1 = Raise (HTTPException 404 "Vehicle not found")
     ↔ query.1 = Ok [])
  ∧ (∀ d, connect w = Ok d →
       query.1
       = Ok (take 1 (List.filter (has_str "slug" slug) (collection d "vehicle")))
       ∧ ((get_vehicle slug w).1 = Raise (HTTPException 404 "Vehicle not found")
          ↔ ∀ doc, doc ∈ collection d "vehicle" →
                   has_str "slug" slug doc = false)).
Proof.
  intros query.
  assert (Hiff : (get_vehicle slug w).1
                 = Raise (HTTPException 404 "Vehicle not found")
                 ↔ query.1 = Ok []).
  { rewrite get_vehicle_run. fold query. simpl.
    destruct (query.1) as [[|it res]|e] eqn:Hq.
    - done.
    - split; intros [=].
    - split; [|done]. intros [= ->].
      apply get_documents_raises in Hq as (cls & msg & [=]). }
  split; [apply get_vehicle_run|]. split; [done|].
  intros d Hd.
  assert (Hq : query.1 = Ok (take 1 (List.filter (has_str "slug" slug)
                                        (collection d "vehicle")))).
  { unfold query. by rewrite (get_documents_slug slug w d Hd). }
  split; [done|]. rewrite Hiff, Hq.
  rewrite <- filter_nil_iff, <- take_1_nil.
  split; [by intros [= ->]|by intros ->].
Qed.

Lemma get_vehicle_not_found_witness :
  ∃ d, connect same_slug_world = Ok d ∧
    ((get_vehicle "spider" same_slug_world).1
     = Raise (HTTPException 404 "Vehicle not found")
     ↔ ∀ doc, doc ∈ collection d "vehicle" →
              has_str "slug" "spider" doc = false).
Proof.
  eexists. split; [reflexivity|].
  destruct (get_vehicle_not_found_iff_no_result "spider" same_slug_world)
    as (_ & _ & Hstore).
  apply Hstore. reflexivity.
Defined.

(** ** Writing a vehicle and reading it back *)

Lemma filter_unique_head {A} (p : A → bool) (l : list A) (x : A) :
  x ∈ l → p x = true → (∀ y, y ∈ l → p y = true → y = x) →
  take 1 (List.filter p l) = [x].
Proof.
  induction l as [|a l IH]; intros Hx Hp Huniq.
  - by apply elem_of_nil in Hx.
  - simpl. destruct (p a) eqn:Ha.
    + simpl. rewrite take_0. f_equal. apply Huniq; [left|done].
    + apply elem_of_cons in Hx as [->|Hx]; [congruence|].
      apply IH; [done..|]. intros y Hy. apply Huniq. by right.
Qed.

Lemma write_step_inv (w w' : World) (id : string) :
  write_step w id w' →
  id = oid_hex (next_oid w) ∧ next_oid w' = N.succ (next_oid w).
Proof.
  intros [T MT c x w1 w2 id' Hc].
  apply create_document_inv in Hc as (d & Hd & -> & ->).
  apply connect_inv in Hd as [Hd _]. unfold next_oid. by rewrite Hd.
Qed.

Lemma write_run_ids (w w' : World) (ids : list string) :
  write_run w ids w' →
  Forall (λ id, ∃ n, id = oid_hex n ∧ (next_oid w ≤ n)%N) ids ∧ NoDup ids.
Proof.
  induction 1 as [w|w w' w'' id ids Hstep Hrun [IHall IHnd]].
  - split; constructor.
  - apply write_step_inv in Hstep as [-> Hnext]. split.
    + constructor; [exists (next_oid w); split; [done|lia]|].
      eapply Forall_impl; [exact IHall|].
      intros id (n & -> & Hn). exists n. split; [done|lia].
    + constructor; [|done]. intros Hin.
      rewrite Forall_forall in IHall.
      destruct (IHall _ Hin) as (n & Heq & Hn).
      apply oid_hex_inj in Heq. lia.
Qed.

Lemma vehicle_dump_slug (v : Vehicle.t) :
  model_dump v !! "slug" = Some (VStr (Vehicle.slug v)).
Proof. reflexivity. Qed.

Lemma stored_vehicle_slug (v : Vehicle.t) (oid : N) :
  has_str "slug" (Vehicle.slug v) (stored v oid) = true.
Proof.
  unfold has_str, stored. cbn [doc_fields]. rewrite vehicle_dump_slug.
  cbn [holds]. apply String.eqb_refl.
Qed.

(** ** Bookings *)

Lemma with_default_absent {A} (raw : Dict) (name : string) (p : Validator A)
  (default : A) :
  raw !! name = None → with_default raw name p default = Ok default.
Proof. intros Hn. unfold with_default. by rewrite Hn. Qed.


Lemma booking_dump_status (booking : Booking.t) :
  model_dump booking !! "status" = Some (VStr (Booking.status booking)).
Proof. reflexivity. Qed.

Lemma submit_booking_refused (booking : Booking.t) (w : World) :
  unconfirmed_self_drive booking →
  submit_booking booking w
  = (Raise (HTTPException 400 "Driver age must be confirmed for self-drive"),
     w).
Proof.
  intros [Hmode Hage]. unfold submit_booking.
  by rewrite Hage, bool_decide_true.
Qed.

Lemma submit_booking_passes (booking : Booking.t) (w : World) :
  ¬ unconfirmed_self_drive booking →
  submit_booking booking w
  = (_id ← create_document "booking" booking; mret (ok_response _id)) w.
Proof.
  intros Hno. unfold submit_booking.
  destruct (bool_decide _) eqn:Hmode; [|done].
  destruct (Booking.driver_age_confirmed booking) eqn:Hage; [done|].
  apply bool_decide_eq_true in Hmode. by destruct Hno.
Qed.



(** ** Leads *)

Lemma lead_validate_kwargs (lead : QuoteRequest.t) (now : string) :
  Lead.validate (list_to_map [
      ("source", VStr "web");
      ("form_type", VStr "quote");
      ("payload", VDict (lead_payload lead now))])
  = Ok (lead_of lead now).
Proof. reflexivity. Qed.

Lemma create_lead_run (lead : QuoteRequest.t) (w : World) :
  create_lead lead w
  = (_id ← create_document "lead" (lead_of lead (utcnow_isoformat w));
     mret (ok_response _id)) w.
Proof.
  unfold create_lead, mbind, M_bind, lift.
  by rewrite lead_validate_kwargs.
Qed.

Lemma create_lead_ok (lead : QuoteRequest.t) (w : World) (d : Database) :
  connect w = Ok d →
  create_lead lead w
  = (Ok (ok_response (oid_hex (db_next_oid d))),
     set_db (with_record "lead"
               (stored (lead_of lead (utcnow_isoformat w)) (db_next_oid d)) d)
       w).
Proof.
  intros Hd. rewrite create_lead_run. unfold mbind, M_bind.
  by rewrite (create_document_ok _ _ _ _ Hd).
Qed.

Lemma create_lead_inv (lead : QuoteRequest.t) (w w' : World) (r : Dict) :
  create_lead lead w = (Ok r, w') →
  ∃ d, connect w = Ok d ∧
       w' = set_db (with_record "lead"
                      (stored (lead_of lead (utcnow_isoformat w))
                         (db_next_oid d)) d) w.
Proof.
  destruct (connect w) as [d|e] eqn:Hd.
  - rewrite (create_lead_ok _ _ _ Hd). intros [= _ <-]. eauto.
  - rewrite create_lead_run. unfold mbind, M_bind.
    by rewrite (create_document_raises _ _ _ _ Hd).
Qed.

Lemma lead_payload_contact (lead : QuoteRequest.t) (now : string) :
  lead_payload lead now !! "contact" = Some (VDict (contact_of lead)).
Proof. reflexivity. Qed.


Lemma lead_payload_other (lead : QuoteRequest.t) (now : string) (k : string) :
  k ≠ "contact" → k ≠ "received_at" →
  lead_payload lead now !! k = model_dump (QuoteRequest.payload lead) !! k.
Proof.
  intros Hc Hr. unfold lead_payload.
  rewrite lookup_insert_ne by done. by rewrite lookup_insert_ne.
Qed.



(** C10: whenever [create_lead] accepts a request, the record it adds to
    the collection "lead" has [status] "new", whatever the request holds:
    the request has no field for the status of the lead. *)
Theorem create_lead_status_new (lead : QuoteRequest.t) (w w' : World)
  (r : Dict) :
  create_lead lead w = (Ok r, w') →
  ∃ d d' doc,
    db w = Some d ∧ db w' = Some d' ∧
    collection d' "lead" = collection d "lead" ++ [doc] ∧
    doc_fields doc !! "status" = Some (VStr "new").
Proof.
  intros (d & Hd & ->)%create_lead_inv.
  apply connect_inv in Hd as [Hd _].
  eexists d, _, _. split; [done|]. split; [reflexivity|].
  split; [apply collection_with_record_eq|reflexivity].
Qed.

Lemma create_lead_status_new_witness :
  ∃ d d' doc,
    db empty_world = Some d ∧
    db (after (create_lead sample_quote) empty_world) = Some d' ∧
    collection d' "lead" = collection d "lead" ++ [doc] ∧
    doc_fields doc !! "status" = Some (VStr "new").
Proof.
  apply (create_lead_status_new sample_quote empty_world _
           (ok_response "000000000000000000000000")).
  reflexivity.
Defined.

(** ** Diagnostics *)

Lemma length_take_10 {A} (l : list A) : length (take 10 l) ≤ 10.
Proof. rewrite length_take. lia. Qed.

(** C6: in every state, [test_database] returns a response and raises
    nothing, and it leaves the state as it was. When the handle was never
    initialised the field [database] says so; when listing the collections
    raises, whatever the class and the message of the exception, the field
    [database] is a fixed prefix followed by the first 80 characters of
    the message at most, and no collection is listed; when the store
    answers, [collections] holds the first 10 names at most. In every case
    [collections] is a list of at most 10 names. *)
Theorem test_database_never_raises (w : World) :
  ∃ response : Dict,
    test_database w = (Ok response, w)
    ∧ (∃ names : list string,
         response !! "collections" = Some (str_list names) ∧ length names ≤ 10)
    ∧ (db w = None →
       response !! "database" = Some (VStr "⚠️ Available but not initialized"))
    ∧ (∀ d cls msg,
         db w = Some d → db_fault d = Some (cls, msg) →
         response !! "database"
         = Some (VStr ("⚠️ Connected but Error: " +:+ py_prefix 80 msg))
         ∧ py_len (py_prefix 80 msg) ≤ 80
         ∧ response !! "collections" = Some (VList []))
    ∧ (∀ d,
         db w = Some d → db_fault d = None →
         response !! "database" = Some (VStr "✅ Connected & Working")
         ∧ response !! "collections"
           = Some (str_list (take 10 (map_to_list (db_collections d)).*1))).
Proof.
  unfold test_database.
  destruct (db w) as [d|] eqn:Hdb.
  - destruct (db_fault d) as [[cls msg]|] eqn:Hf.
    + unfold try_except, mbind, Stmt_bind, call, assign,
        list_collection_names. rewrite Hf. cbn beta iota.
      eexists. split; [reflexivity|].
      split; [exists []; split; [reflexivity|simpl; lia]|]. split; [done|]. split.
      * intros d' cls' msg' [= <-] Hf'. rewrite Hf in Hf'.
        injection Hf' as <- <-.
        split; [reflexivity|]. split; [apply py_len_prefix|reflexivity].
      * intros d' [= <-] Hf'. congruence.
    + unfold try_except, mbind, Stmt_bind, call, assign,
        list_collection_names. rewrite Hf. cbn beta iota.
      eexists. split; [reflexivity|].
      split; [eexists; split; [reflexivity|apply length_take_10]|].
      split; [done|]. split.
      * intros d' cls' msg' [= <-] Hf'. congruence.
      * intros d' [= <-] _. split; reflexivity.
  - unfold try_except, assign. cbn beta iota.
    eexists. split; [reflexivity|].
    split; [exists []; split; [reflexivity|simpl; lia]|]. split; [intros _; reflexivity|].
    split; [intros d cls msg [=]|intros d [=]].
Qed.

Lemma test_database_never_raises_witness :
  ∃ response : Dict,
    test_database down_world = (Ok response, down_world)
    ∧ response !! "database"
      = Some (VStr ("⚠️ Connected but Error: "
                    +:+ "localhost:27017: connection refused"))
    ∧ response !! "collections" = Some (VList []).
Proof.
  destruct (test_database_never_raises down_world)
    as (response & Hrun & _ & _ & Hfault & _).
  exists response. split; [exact Hrun|].
  destruct (Hfault _ _ _ eq_refl eq_refl) as (Hdb & _ & Hcoll).
  split; [exact Hdb|exact Hcoll].
Defined.

(** ** Uploads *)

Lemma upload_file_run (file : UploadFile.t) (w : World) :
  let filename := str_or (UploadFile.filename file) "upload.bin" in
  upload_file file w
  = if bool_decide ("/tmp/" +:+ filename ∈ unwritable w)
    then (Raise (PyError "OSError" ("/tmp/" +:+ filename)), w)
    else (Ok {[ "url" := VStr ("https://files.local/" +:+ filename) ]},
          set_files (<["/tmp/" +:+ filename := UploadFile.contents file]>
                       (files w)) w).
Proof.
  unfold upload_file, mbind, M_bind, write_file. cbn zeta.
  by destruct (bool_decide _).
Qed.



(** ** Listing vehicles *)

Lemma truthy_str_spec (o : option string) :
  truthy_str o = true ↔ ∃ s, o = Some s ∧ s ≠ "".
Proof.
  destruct o as [s|]; simpl.
  - destruct (String.eqb_spec s ""); simpl; split.
    + done.
    + intros (s' & [= <-] & Hs). done.
    + intros _. eauto.
    + done.
  - split; [done|]. by intros (s & [=] & _).
Qed.

Lemma get_documents_all (c : string) (w : World) (d : Database) :
  connect w = Ok d → get_documents c ∅ None w = (Ok (collection d c), w).
Proof.
  intros Hd. unfold get_documents, read_filter.
  rewrite Hd, map_to_list_empty. simpl. do 2 f_equal.
  induction (collection d c) as [|doc l IH]; [done|].
  simpl. by rewrite IH.
Qed.

(** ** Validation of vehicles *)

Section VehicleValidation.
Context `{Coercion}.

Lemma required_raises {A} (raw : Dict) (name : string) (p : Validator A)
  (e : Exception) :
  required raw name p = Raise e → e = ValidationError name.
Proof.
  unfold required. destruct (raw !! name) as [x|]; [|by intros [= <-]].
  destruct (p x); [done|by intros [= <-]].
Qed.

Lemma with_default_raises {A} (raw : Dict) (name : string)
  (p : Validator A) (default : A) (e : Exception) :
  with_default raw name p default = Raise e → e = ValidationError name.
Proof.
  unfold with_default. destruct (raw !! name) as [x|]; [|done].
  destruct (p x); [done|by intros [= <-]].
Qed.

Lemma vehicle_validate_raises (raw : Dict) (e : Exception) :
  Vehicle.validate raw = Raise e → ∃ loc, e = ValidationError loc.
Proof.
  unfold Vehicle.validate, mbind, Result_bind. intros Hv.
  repeat match type of Hv with
         | match ?r with _ => _ end = Raise _ =>
             let Hf := fresh "Hfield" in
             destruct r eqn:Hf;
               [|injection Hv as <-;
                 first [apply required_raises in Hf
                       |apply with_default_raises in Hf]; eauto]
         end.
  discriminate Hv.
Qed.

Lemma vehicle_validate_fields (raw : Dict) (v : Vehicle.t) :
  Vehicle.validate raw = Ok v →
  required raw "year" (int_ (Some 1900%Z) (Some 2100%Z))
  = Ok (Vehicle.year v)
  ∧ with_default raw "seats" (optional_ (int_ (Some 1%Z) (Some 9%Z))) None
    = Ok (Vehicle.seats v)
  ∧ required raw "price_per_day" (float_ true) = Ok (Vehicle.price_per_day v)
  ∧ required raw "mileage_limit_per_day" (int_ (Some 0%Z) None)
    = Ok (Vehicle.mileage_limit_per_day v)
  ∧ required raw "security_deposit" (int_ (Some 0%Z) (Some 10000%Z))
    = Ok (Vehicle.security_deposit v).
Proof.
  intros Hv. unfold Vehicle.validate in Hv. invert_validate Hv.
  by repeat split.
Qed.

Lemma int_bounds (ge le : option Z) (x : Value) (z : Z) :
  int_ ge le x = Some z ↔ as_int x = Some z ∧ in_bounds ge le z = true.
Proof.
  unfold int_. destruct (as_int x) as [y|]; [|by split; [|intros []]].
  destruct (in_bounds ge le y) eqn:Hb; split.
  - by intros [= <-].
  - by intros [[= <-] _].
  - done.
  - intros [[= <-] ?]. congruence.
Qed.

Lemma float_bounds (x : Value) (f : spec_float) :
  float_ true x = Some f ↔ as_float x = Some f ∧ float_ge0 f = true.
Proof.
  unfold float_. destruct (as_float x) as [g|]; [|by split; [|intros []]].
  simpl. destruct (float_ge0 g) eqn:Hg; split.
  - by intros [= <-].
  - by intros [[= <-] _].
  - done.
  - intros [[= <-] ?]. congruence.
Qed.

Lemma required_ok {A} (raw : Dict) (name : string) (p : Validator A) (a : A) :
  required raw name p = Ok a ↔ ∃ x, raw !! name = Some x ∧ p x = Some a.
Proof.
  unfold required. destruct (raw !! name) as [x|].
  - destruct (p x) as [b|] eqn:Hp; split.
    + intros [= <-]. eauto.
    + intros (x' & [= <-] & Hx). congruence.
    + done.
    + intros (x' & [= <-] & Hx). congruence.
  - split; [done|]. by intros (x & [=] & _).
Qed.

Lemma in_bounds_both (lo hi z : Z) :
  in_bounds (Some lo) (Some hi) z = true ↔ (lo ≤ z ≤ hi)%Z.
Proof. unfold in_bounds. rewrite andb_true_iff, !Z.leb_le. done. Qed.

Lemma in_bounds_ge (lo z : Z) :
  in_bounds (Some lo) None z = true ↔ (lo ≤ z)%Z.
Proof. unfold in_bounds. rewrite andb_true_r, Z.leb_le. done. Qed.

Lemma vehicle_validate_in_range (raw : Dict) (v : Vehicle.t) :
  Vehicle.validate raw = Ok v → Vehicle.in_range v.
Proof.
  intros (Hy & Hs & Hp & Hm & Hd)%vehicle_validate_fields.
  apply required_ok in Hy as (x & _ & (_ & Hy)%int_bounds).
  apply required_ok in Hp as (xp & _ & (_ & Hp)%float_bounds).
  apply required_ok in Hm as (xm & _ & (_ & Hm)%int_bounds).
  apply required_ok in Hd as (xd & _ & (_ & Hd)%int_bounds).
  apply in_bounds_both in Hy, Hd. apply in_bounds_ge in Hm.
  unfold Vehicle.in_range.
  split; [lia|]. split; [|split; [done|split; [done|lia]]].
  intros n Hseat. rewrite Hseat in Hs. unfold with_default in Hs.
  destruct (raw !! "seats") as [xs|]; [|done].
  destruct (optional_ _ xs) as [o|] eqn:Ho; [|done].
  injection Hs as ->. unfold optional_ in Ho.
  destruct xs; try done; simpl in Ho.
  all: destruct (int_ _ _ _) as [seat|] eqn:Hz; [|done].
  all: injection Ho as ->.
  all: apply int_bounds in Hz as [_ Hz]; apply in_bounds_both in Hz; lia.
Qed.

Lemma vehicle_validate_rejects (raw : Dict) :
  Vehicle.out_of_range raw →
  ∃ loc, Vehicle.validate raw = Raise (ValidationError loc).
Proof.
  intros Hout.
  destruct (Vehicle.validate raw) as [v|e] eqn:Hv.
  2: { apply vehicle_validate_raises in Hv as [loc ->]. eauto. }
  exfalso.
  apply vehicle_validate_fields in Hv as (Hy & Hs & Hp & Hm & Hd).
  destruct Hout as [(x & y & Hx & Hint & Hbad)
                   |[(x & y & Hx & Hnone & Hint & Hbad)
                   |[(x & f & Hx & Hfl & Hbad)
                   |[(x & y & Hx & Hint & Hbad)
                   |(x & y & Hx & Hint & Hbad)]]]].
  - apply required_ok in Hy as (x' & Hx' & (Hint' & Hb)%int_bounds).
    rewrite Hx in Hx'. injection Hx' as <-.
    apply in_bounds_both in Hb. apply Hbad.
    by replace y with (Vehicle.year v) by congruence.
  - unfold with_default in Hs. rewrite Hx in Hs.
    destruct (optional_ _ x) as [o|] eqn:Ho; [|done].
    unfold optional_ in Ho. destruct x; try done; simpl in Ho.
    all: destruct (int_ _ _ _) as [seat|] eqn:Hz; [|done].
    all: apply int_bounds in Hz as [Hint' Hb]; apply in_bounds_both in Hb.
    all: apply Hbad; by replace y with seat by congruence.
  - apply required_ok in Hp as (x' & Hx' & (Hfl' & Hb)%float_bounds).
    rewrite Hx in Hx'. injection Hx' as <-. congruence.
  - apply required_ok in Hm as (x' & Hx' & (Hint' & Hb)%int_bounds).
    rewrite Hx in Hx'. injection Hx' as <-.
    apply in_bounds_ge in Hb. apply Hbad.
    by replace y with (Vehicle.mileage_limit_per_day v) by congruence.
  - apply required_ok in Hd as (x' & Hx' & (Hint' & Hb)%int_bounds).
    rewrite Hx in Hx'. injection Hx' as <-.
    apply in_bounds_both in Hb. apply Hbad.
    by replace y with (Vehicle.security_deposit v) by congruence.
Qed.
End VehicleValidation.

Lemma vehicle_dump_ranges (v : Vehicle.t) :
  model_dump v !! "year" = Some (VInt (Vehicle.year v))
  ∧ model_dump v !! "seats" = Some (opt_value VInt (Vehicle.seats v))
  ∧ model_dump v !! "price_per_day" = Some (VFloat (Vehicle.price_per_day v))
  ∧ model_dump v !! "mileage_limit_per_day"
    = Some (VInt (Vehicle.mileage_limit_per_day v))
  ∧ model_dump v !! "security_deposit"
    = Some (VInt (Vehicle.security_deposit v)).
Proof. repeat split; reflexivity. Qed.

(** C7: a vehicle accepted by validation has its year in [1900, 2100], its
    seats, when given, in [1, 9], a price per day and a mileage limit per
    day that are not negative, and a security deposit in [0, 10000]; a raw
    payload that breaks one of these ranges is rejected with a validation
    error; and the record the gateway stores for an accepted vehicle holds
    these very values under the five keys. This holds whatever values the
    validation library converts to an [int] or a [float]. *)
Theorem vehicle_validation_ranges (C : Coercion) (raw : Dict) :
  (∀ v, Vehicle.validate raw = Ok v → Vehicle.in_range v)
  ∧ (Vehicle.out_of_range raw →
     ∃ loc, Vehicle.validate raw = Raise (ValidationError loc))
  ∧ (∀ v oid,
       Vehicle.validate raw = Ok v →
       let doc := stored v oid in
       Vehicle.in_range v
       ∧ doc_fields doc !! "year" = Some (VInt (Vehicle.year v))
       ∧ doc_fields doc !! "seats" = Some (opt_value VInt (Vehicle.seats v))
       ∧ doc_fields doc !! "price_per_day"
         = Some (VFloat (Vehicle.price_per_day v))
       ∧ doc_fields doc !! "mileage_limit_per_day"
         = Some (VInt (Vehicle.mileage_limit_per_day v))
       ∧ doc_fields doc !! "security_deposit"
         = Some (VInt (Vehicle.security_deposit v))).
Proof.
  split; [apply vehicle_validate_in_range|].
  split; [apply vehicle_validate_rejects|].
  intros v oid Hv doc.
  split; [by eapply vehicle_validate_in_range|].
  apply vehicle_dump_ranges.
Qed.

Lemma vehicle_validation_ranges_witness :
  Vehicle.in_range (sample_vehicle "roma" "Ferrari" 2020)
  ∧ ∃ loc, Vehicle.validate (H := strict_coercion) (sample_vehicle_body 1899)
           = Raise (ValidationError loc).
Proof.
  split.
  - destruct (vehicle_validation_ranges strict_coercion
                (sample_vehicle_body 2020)) as (Haccept & _ & _).
    apply Haccept. reflexivity.
  - destruct (vehicle_validation_ranges strict_coercion
                (sample_vehicle_body 1899)) as (_ & Hreject & _).
    apply Hreject. left. exists (VInt 1899), 1899%Z.
    split; [reflexivity|]. split; [reflexivity|lia].
Defined.

(** ** The filter on the make *)

(** A make without pattern characters is read as the sequence of its
    characters between the two anchors. *)
Lemma plain_char (c : ascii) :
  Regex.is_meta c = false →
  Ascii.eqb c "\" = false ∧ Regex.is_bracket c = false
  ∧ Regex.token_of c = Regex.TChr c.
Proof.
  destruct c as [[] [] [] [] [] [] [] []]; vm_compute; intros Hc;
    first [discriminate Hc | repeat split; reflexivity].
Qed.

Lemma lex_plain (m rest : string) :
  Regex.plain m = true →
  Regex.lex (m +:+ rest)
  = app (Regex.TChr <$> list_ascii_of_string m) <$> Regex.lex rest.
Proof.
  unfold Regex.plain. induction m as [|c m IH]; simpl.
  - intros _. change ("" +:+ rest) with rest. by destruct (Regex.lex rest).
  - intros [Hc Hm]%andb_true_iff. apply negb_true_iff in Hc.
    apply plain_char in Hc as (-> & -> & ->). rewrite (IH Hm).
    by destruct (Regex.lex rest).
Qed.

Lemma parse_chars (l : list ascii) :
  Regex.parse ((Regex.TChr <$> l) ++ [Regex.TEol])
  = Some [(Regex.Chr <$> l) ++ [Regex.Eol]].
Proof.
  induction l as [|c l IH]; [done|].
  cbn [fmap list_fmap app]. cbn [Regex.parse Regex.atom].
  destruct l as [|c' l]; [done|].
  cbn [fmap list_fmap app Regex.quantify] in *. by rewrite IH.
Qed.

Lemma parse_anchored (l : list ascii) :
  Regex.parse (Regex.TBol :: (Regex.TChr <$> l) ++ [Regex.TEol])
  = Some [Regex.Bol :: (Regex.Chr <$> l) ++ [Regex.Eol]].
Proof.
  destruct l as [|c l]; [done|].
  pose proof (parse_chars (c :: l)) as Hp.
  cbn [fmap list_fmap app] in *. cbn [Regex.parse Regex.atom Regex.quantify].
  cbn [Regex.parse Regex.atom Regex.quantify] in Hp. by rewrite Hp.
Qed.

Lemma compile_plain (m : string) :
  Regex.plain m = true →
  Regex.compile ("^" +:+ m +:+ "$")
  = Some (Regex.Alt
            (Regex.Cat Regex.Bol
               (foldr Regex.Cat Regex.Eps
                  ((Regex.Chr <$> list_ascii_of_string m) ++ [Regex.Eol])))
            Regex.Void).
Proof.
  intros Hm. unfold Regex.compile.
  change (Regex.lex ("^" +:+ m +:+ "$"))
    with (cons Regex.TBol <$> Regex.lex (m +:+ "$")).
  rewrite (lex_plain _ _ Hm).
  change (Regex.lex "$") with (Some [Regex.TEol]).
  cbn [fmap option_fmap option_map mbind option_bind].
  by rewrite parse_anchored.
Qed.

Lemma lower_newline (c : ascii) :
  Regex.lower c = Regex.newline ↔ c = Regex.newline.
Proof.
  destruct c as [[] [] [] [] [] [] [] []]; vm_compute; split; intros Hc;
    first [discriminate Hc | reflexivity].
Qed.

Lemma at_eol_cons (c : ascii) (t : list ascii) (n : nat) :
  Regex.at_eol (c :: t) (S n) = Regex.at_eol t n.
Proof. reflexivity. Qed.

(** The sequence of the characters of [l] followed by the end anchor
    matches from position [i] exactly when [l] stands there and what is
    left is nothing or one newline. *)
Lemma ends_chain (s l : list ascii) (i : nat) :
  Regex.ends true s
    (foldr Regex.Cat Regex.Eps ((Regex.Chr <$> l) ++ [Regex.Eol])) i
  = if Regex.literal_at l (drop i s) && Regex.at_eol s (i + length l)
    then [i + length l] else [].
Proof.
  revert i. induction l as [|a l IH]; intros i.
  - cbn [fmap list_fmap app foldr Regex.ends Regex.literal_at length andb].
    rewrite Nat.add_0_r. by destruct (Regex.at_eol s i).
  - cbn [fmap list_fmap app foldr Regex.ends length].
    rewrite Nat.add_succ_r.
    destruct (s !! i) as [c|] eqn:Hi.
    + rewrite (drop_S _ _ _ Hi). cbn [Regex.literal_at].
      destruct (Regex.chr_eq true a c); [|done].
      cbn [flat_map andb]. rewrite app_nil_r. apply (IH (S i)).
    + rewrite drop_ge by by apply lookup_ge_None. done.
Qed.

Lemma search_anchored (s : list ascii) (r : Regex.t) :
  Regex.search true s (Regex.Alt (Regex.Cat Regex.Bol r) Regex.Void)
  = negb (bool_decide (Regex.ends true s r 0 = [])).
Proof.
  unfold Regex.search. cbn [seq existsb Regex.ends Nat.eqb flat_map].
  rewrite !app_nil_r.
  destruct (negb (bool_decide (Regex.ends true s r 0 = []))); [done|].
  cbn [orb]. apply not_true_iff_false. intros Hex.
  apply existsb_exists in Hex as (i & Hi & Hf).
  apply in_seq in Hi. destruct i as [|i]; [lia|]. done.
Qed.

Lemma literal_then_end (l t : list ascii) :
  Regex.literal_at l t && Regex.at_eol t (length l) = true
  ↔ Regex.lower <$> t = Regex.lower <$> l
    ∨ Regex.lower <$> t = Regex.lower <$> (l ++ [Regex.newline]).
Proof.
  revert t. induction l as [|a l IH]; intros t.
  - destruct t as [|c [|c' t]]; cbn.
    + split; [by left|done].
    + unfold Regex.at_eol. cbn. rewrite bool_decide_eq_true. split.
      * intros [= ->]. by right.
      * intros [[=]|[= Hc]]. by apply lower_newline in Hc as ->.
    + split; [done|]. intros [[=]|[=]].
  - destruct t as [|c t].
    + cbn. split; [done|]. intros [[=]|[=]].
    + cbn [Regex.literal_at length]. rewrite at_eol_cons.
      rewrite <- andb_assoc, andb_true_iff, IH.
      unfold Regex.chr_eq. rewrite Ascii.eqb_eq. cbn [fmap list_fmap app].
      split.
      * intros [-> [->| ->]]; [by left|by right].
      * intros [[= -> Ht]|[= -> Ht]]; (split; [done|]); [by left|by right].
Qed.

Lemma list_ascii_of_string_app (a b : string) :
  list_ascii_of_string (a +:+ b)
  = list_ascii_of_string a ++ list_ascii_of_string b.
Proof.
  induction a as [|c a IH]; [done|].
  change (String c a +:+ b) with (String c (a +:+ b)).
  cbn [list_ascii_of_string app]. by rewrite IH.
Qed.

(** On a make without pattern characters the condition is the exact match
    up to the case of ASCII letters, a final newline in the stored make
    apart. *)
Lemma holds_plain_make (m : string) :
  Regex.plain m = true →
  ∃ r, read_condition (make_condition m) = Ok (CondRegex r true)
       ∧ ∀ doc, holds (CondRegex r true) (doc_fields doc !! "make")
                = make_is m doc.
Proof.
  intros Hm. eexists. split.
  - unfold read_condition, make_condition.
    change ((list_to_map [("$regex", VStr ("^" +:+ m +:+ "$"));
                          ("$options", VStr "i")] : Dict) !! "$regex")
      with (Some (VStr ("^" +:+ m +:+ "$"))).
    change (default (VStr "") _) with (VStr "i").
    cbn beta iota. rewrite (compile_plain _ Hm). reflexivity.
  - intros doc. unfold make_is, holds.
    destruct (doc_fields doc !! "make") as [[| | | |v| |]|]; try done.
    rewrite search_anchored, ends_chain. cbn [drop Nat.add].
    unfold same_up_to_case. rewrite list_ascii_of_string_app.
    change (list_ascii_of_string (String Regex.newline ""))
      with [Regex.newline].
    pose proof (literal_then_end (list_ascii_of_string m)
                  (list_ascii_of_string v)) as Hspec.
    destruct (Regex.literal_at _ _ && Regex.at_eol _ _).
    + destruct Hspec as [[Heq|Heq] _]; [done|..].
      * by rewrite (bool_decide_true _ Heq).
      * rewrite (bool_decide_true _ Heq). by rewrite orb_true_r.
    + cbn. symmetry. apply orb_false_iff.
      rewrite !bool_decide_eq_false. split; intros Heq.
      * by destruct Hspec as [_ ?%(fun H => H (or_introl Heq))].
      * by destruct Hspec as [_ ?%(fun H => H (or_intror Heq))].
Qed.

Lemma read_filter_singleton (k : string) (v : Value) (c : Condition) :
  read_condition v = Ok c → read_filter {[ k := v ]} = Ok [(k, c)].
Proof.
  intros Hc. unfold read_filter. rewrite map_to_list_singleton.
  simpl. by rewrite Hc.
Qed.

Lemma vehicle_filters_make (m : string) :
  m ≠ "" →
  vehicle_filters (Some m) None None = {[ "make" := make_condition m ]}.
Proof.
  intros Hne. unfold vehicle_filters.
  replace (truthy_str (Some m)) with true
    by (symmetry; apply truthy_str_spec; eauto).
  cbn [truthy_str]. apply insert_empty.
Qed.

(** For a make without pattern characters, [list_vehicles] does return
    the vehicles whose make is the parameter up to the case of ASCII
    letters. *)
Lemma list_vehicles_plain_make (m : string) (w : World) (d : Database) :
  connect w = Ok d → Regex.plain m = true → m ≠ "" →
  list_vehicles (Some m) None None w
  = (Ok (stringify_id <$> List.filter (make_is m) (collection d "vehicle")),
     w).
Proof.
  intros Hd Hm Hne.
  destruct (holds_plain_make m Hm) as (r & Hr & Hholds).
  unfold list_vehicles, mbind, M_bind, get_documents.
  rewrite (vehicle_filters_make m Hne), Hd, (read_filter_singleton _ _ _ Hr).
  unfold mret, M_ret. do 3 f_equal. apply List.filter_ext. intros doc.
  unfold selects. cbn [forallb fst snd]. by rewrite andb_true_r, Hholds.
Qed.

(** C2, at the failing input: the value of [make] is put between "^" and
    "$" as it is, so the store reads it as a pattern. With [make=Ferrari]
    the vehicle of make "ferrari" is returned and the one of make
    "Ferrari-adjacent" is not; with [make=Ferrari.*] both are returned,
    although "Ferrari-adjacent" is not "Ferrari.*" in any case of
    letters; and with [make=Ferrari|x] both are returned as well, the
    second one on its first seven characters alone. *)
Theorem list_vehicles_make_is_a_pattern :
  makes_of (list_vehicles (Some "Ferrari") None None makes_world)
  = Ok [Some (VStr "ferrari")]
  ∧ makes_of (list_vehicles (Some "Ferrari.*") None None makes_world)
    = Ok [Some (VStr "ferrari"); Some (VStr "Ferrari-adjacent")]
  ∧ makes_of (list_vehicles (Some "Ferrari|x") None None makes_world)
    = Ok [Some (VStr "ferrari"); Some (VStr "Ferrari-adjacent")].
Proof. repeat split; vm_compute; reflexivity. Qed.

(** ** What the parameters of a listing select *)

Lemma mapM_ok_inv {A B} (g : A → Result B) (l : list A) (q : list B) :
  mapM g l = Ok q → Forall2 (λ x y, g x = Ok y) l q.
Proof.
  revert q. induction l as [|x l IH]; intros q; simpl.
  - intros [= <-]. constructor.
  - unfold mbind, Result_bind, mret, Result_ret.
    destruct (g x) as [y|] eqn:Hy; [|done].
    destruct (mapM g l) as [k|] eqn:Hk; [|done].
    intros [= <-]. constructor; [done|]. by apply IH.
Qed.

Lemma mapM_ok_total {A B} (g : A → Result B) (l : list A) :
  (∀ x, x ∈ l → ∃ y, g x = Ok y) → ∃ q, mapM g l = Ok q.
Proof.
  induction l as [|x l IH]; intros Hall; simpl; [by eexists|].
  destruct (Hall x) as [y Hy]; [by left|].
  destruct IH as [q Hq]; [intros z Hz; apply Hall; by right|].
  exists (y :: q). rewrite Hy. cbn [mbind Result_bind]. by rewrite Hq.
Qed.

(** A record is selected exactly when every entry of the filter holds of
    it. *)
Lemma selects_read_filter (f : Dict) (q : list (string * Condition))
  (doc : Document) :
  read_filter f = Ok q →
  selects q doc = true
  ↔ ∀ k v, f !! k = Some v →
           ∃ c, read_condition v = Ok c ∧ holds c (doc_fields doc !! k) = true.
Proof.
  unfold read_filter. intros Hq%mapM_ok_inv.
  assert (Hl : ∀ k v, f !! k = Some v ↔ (k, v) ∈ map_to_list f)
    by (intros; by rewrite elem_of_map_to_list).
  setoid_rewrite Hl. clear Hl.
  induction Hq as [|[k v] [k' c] l q' Hhead Htail IH].
  - split; [|intros _; reflexivity].
    intros _ k v Hin. by apply elem_of_nil in Hin.
  - unfold fmap, Result_fmap in Hhead. cbn [fst snd] in Hhead.
    destruct (read_condition v) as [c'|] eqn:Hc; [|done].
    injection Hhead as <- <-.
    unfold selects in *. cbn [forallb fst snd].
    rewrite andb_true_iff, IH. split.
    + intros [Hh Hrest] k2 v2 [[= -> ->]|Hin]%elem_of_cons; eauto.
    + intros Hall. split.
      * destruct (Hall k v) as (c2 & Hc2 & Hh); [by left|]. congruence.
      * intros k2 v2 Hin. apply Hall. by right.
Qed.

Lemma read_filter_total (f : Dict) :
  (∀ k v, f !! k = Some v → ∃ c, read_condition v = Ok c) →
  ∃ q, read_filter f = Ok q.
Proof.
  intros Hall. unfold read_filter. apply mapM_ok_total.
  intros [k v] Hin. apply elem_of_map_to_list in Hin.
  destruct (Hall k v Hin) as [c Hc]. exists (k, c).
  unfold fmap, Result_fmap. simpl. by rewrite Hc.
Qed.

Lemma vehicle_filters_lookup (make type drive_mode : option string)
  (k : string) :
  vehicle_filters make type drive_mode !! k
  = if decide (k = "drive_mode") then
      if truthy_str drive_mode then Some (VStr (default "" drive_mode))
      else None
    else if decide (k = "type") then
      if truthy_str type then Some (VStr (default "" type)) else None
    else if decide (k = "make") then
      if truthy_str make then Some (make_condition (default "" make))
      else None
    else None.
Proof.
  unfold vehicle_filters.
  destruct (truthy_str make), (truthy_str type), (truthy_str drive_mode).
  all: repeat case_decide; subst; try done.
  all: rewrite ?lookup_insert_ne by done; rewrite ?lookup_insert_eq; done.
Qed.

Lemma make_entry_holds (m : string) (c : Condition) (doc : Document) :
  Regex.plain m = true →
  read_condition (make_condition m) = Ok c →
  holds c (doc_fields doc !! "make") = make_is m doc.
Proof.
  intros Hm Hc. destruct (holds_plain_make m Hm) as (r & Hr & Hholds).
  rewrite Hr in Hc. injection Hc as <-. apply Hholds.
Qed.

Lemma truthy_default_plain (make : option string) :
  (∀ m, make = Some m → Regex.plain m = true) →
  truthy_str make = true → Regex.plain (default "" make) = true.
Proof.
  intros Hplain (m & -> & _)%truthy_str_spec. by apply Hplain.
Qed.

(** What the gateway gives for the filter of [list_vehicles] on a store in
    reach, for a make without pattern characters or no make. *)
Lemma get_documents_vehicle_filters (make type drive_mode : option string)
  (w : World) (d : Database) :
  connect w = Ok d →
  (∀ m, make = Some m → Regex.plain m = true) →
  get_documents "vehicle" (vehicle_filters make type drive_mode) None w
  = (Ok (List.filter (vehicle_wanted make type drive_mode)
           (collection d "vehicle")), w).
Proof.
  intros Hd Hplain.
  destruct (read_filter_total (vehicle_filters make type drive_mode))
    as [q Hq].
  { intros k v. rewrite vehicle_filters_lookup.
    repeat case_decide; try done.
    - destruct (truthy_str drive_mode); intros [= <-]. by eexists.
    - destruct (truthy_str type); intros [= <-]. by eexists.
    - destruct (truthy_str make) eqn:Hmk; intros [= <-].
      destruct (holds_plain_make _ (truthy_default_plain _ Hplain Hmk))
        as (r & Hr & _). eauto. }
  unfold get_documents. rewrite Hd, Hq.
  do 2 f_equal. apply List.filter_ext. intros doc.
  apply eq_true_iff_eq. rewrite (selects_read_filter _ _ doc Hq).
  unfold vehicle_wanted. rewrite !andb_true_iff. split.
  - intros Hall. repeat split.
    + destruct (truthy_str make) eqn:Hmk; [|done].
      destruct (Hall "make" (make_condition (default "" make)))
        as (c & Hc & Hh).
      { rewrite vehicle_filters_lookup, Hmk. done. }
      rewrite <- Hh. symmetry. apply make_entry_holds; [|done].
      by apply truthy_default_plain.
    + destruct (truthy_str type) eqn:Hty; [|done].
      destruct (Hall "type" (VStr (default "" type))) as (c & [= <-] & Hh);
        [|done].
      rewrite vehicle_filters_lookup, Hty. done.
    + destruct (truthy_str drive_mode) eqn:Hdm; [|done].
      destruct (Hall "drive_mode" (VStr (default "" drive_mode)))
        as (c & [= <-] & Hh); [|done].
      rewrite vehicle_filters_lookup, Hdm. done.
  - intros [[Hmk Hty] Hdm] k v. rewrite vehicle_filters_lookup.
    repeat case_decide; subst; try done.
    + destruct (truthy_str drive_mode); intros [= <-]. by eexists.
    + destruct (truthy_str type); intros [= <-]. by eexists.
    + destruct (truthy_str make) eqn:Htm; intros [= <-].
      destruct (holds_plain_make _ (truthy_default_plain _ Hplain Htm))
        as (r & Hr & Hholds).
      eexists. split; [exact Hr|]. by rewrite Hholds.
Qed.

Lemma list_vehicles_asks (make type drive_mode : option string) (w : World) :
  list_vehicles make type drive_mode w
  = match get_documents "vehicle" (vehicle_filters make type drive_mode)
            None w with
    | (Ok items, w') => (Ok (stringify_id <$> items), w')
    | (Raise e, w') => (Raise e, w')
    end.
Proof. reflexivity. Qed.

(** C8: the mapping [filters] of [list_vehicles] has an entry for "make",
    for "type" and for "drive_mode" exactly when the parameter is given
    with a value that is not the empty string, and has no other entry; the
    entry of a parameter that is given and not empty is the condition on
    that parameter: the anchored pattern with the option [i] for the make,
    the value itself for the type and the drive mode. This mapping is what
    [list_vehicles] asks the gateway with, and the records the gateway
    gives are what it returns, identifiers converted. So a request whose
    parameters are all absent or empty, such as one with [make=""], gets
    every stored vehicle, and a request with an absent or empty make gets
    the stored vehicles that have the type and the drive mode given and
    not empty, an absent or empty one of these two leaving out its
    condition. *)
Theorem list_vehicles_empty_parameter_absent
  (make type drive_mode : option string) :
  let filters := vehicle_filters make type drive_mode in
  (is_Some (filters !! "make") ↔ ∃ s, make = Some s ∧ s ≠ "")
  ∧ (is_Some (filters !! "type") ↔ ∃ s, type = Some s ∧ s ≠ "")
  ∧ (is_Some (filters !! "drive_mode") ↔ ∃ s, drive_mode = Some s ∧ s ≠ "")
  ∧ (∀ k, is_Some (filters !! k) →
          k = "make" ∨ k = "type" ∨ k = "drive_mode")
  ∧ (∀ w d,
       connect w = Ok d →
       list_vehicles (Some "") None None w
       = (Ok (stringify_id <$> collection d "vehicle"), w))
  ∧ (∀ w d,
       connect w = Ok d →
       truthy_str make = false → truthy_str type = false →
       truthy_str drive_mode = false →
       list_vehicles make type drive_mode w
       = (Ok (stringify_id <$> collection d "vehicle"), w))
  ∧ (∀ s, make = Some s → s ≠ "" →
          filters !! "make"
          = Some (VDict (list_to_map [
                    ("$regex", VStr ("^" +:+ s +:+ "$"));
                    ("$options", VStr "i")])))
  ∧ (∀ s, type = Some s → s ≠ "" → filters !! "type" = Some (VStr s))
  ∧ (∀ s, drive_mode = Some s → s ≠ "" →
          filters !! "drive_mode" = Some (VStr s))
  ∧ (∀ w,
       list_vehicles make type drive_mode w
       = match get_documents "vehicle" filters None w with
         | (Ok items, w') => (Ok (stringify_id <$> items), w')
         | (Raise e, w') => (Raise e, w')
         end)
  ∧ (∀ w d,
       connect w = Ok d →
       truthy_str make = false →
       list_vehicles make type drive_mode w
       = (Ok (stringify_id
                <$> List.filter
                      (λ doc,
                         (if truthy_str type
                          then has_str "type" (default "" type) doc
                          else true)
                         && (if truthy_str drive_mode
                             then has_str "drive_mode" (default "" drive_mode)
                                    doc
                             else true))
                      (collection d "vehicle")), w)).
Proof.
  intros filters.
  assert (Hall : ∀ mk ty dm w d,
    connect w = Ok d →
    truthy_str mk = false → truthy_str ty = false → truthy_str dm = false →
    list_vehicles mk ty dm w = (Ok (stringify_id <$> collection d "vehicle"), w)).
  { intros mk ty dm w d Hd Hmk Hty Hdm.
    unfold list_vehicles, vehicle_filters, mbind, M_bind.
    rewrite Hmk, Hty, Hdm. by rewrite (get_documents_all _ _ _ Hd). }
  assert (Htruthy : ∀ o s, o = Some s → s ≠ "" → truthy_str o = true).
  { intros o s -> Hs. apply truthy_str_spec. eauto. }
  rewrite <- !truthy_str_spec.
  split; [|split; [|split; [|split; [|split; [|split]]]]].
  - unfold filters. rewrite vehicle_filters_lookup.
    repeat case_decide; try done.
    destruct (truthy_str make); split; (done || by intros [? [=]] || by eexists).
  - unfold filters. rewrite vehicle_filters_lookup.
    repeat case_decide; try done.
    destruct (truthy_str type); split; (done || by intros [? [=]] || by eexists).
  - unfold filters. rewrite vehicle_filters_lookup.
    repeat case_decide; try done.
    destruct (truthy_str drive_mode); split;
      (done || by intros [? [=]] || by eexists).
  - intros k. unfold filters. rewrite vehicle_filters_lookup.
    repeat case_decide; subst; auto. by intros [? [=]].
  - intros w d Hd. by apply Hall.
  - intros w d Hd. by apply Hall.
  - split; [|split; [|split; [|split]]].
    + intros s0 -> Hs. unfold filters.
      rewrite vehicle_filters_lookup, (Htruthy _ _ eq_refl Hs).
      repeat case_decide; done.
    + intros s0 -> Hs. unfold filters.
      rewrite vehicle_filters_lookup, (Htruthy _ _ eq_refl Hs).
      repeat case_decide; done.
    + intros s0 -> Hs. unfold filters.
      rewrite vehicle_filters_lookup, (Htruthy _ _ eq_refl Hs).
      repeat case_decide; done.
    + intros w. apply list_vehicles_asks.
    + intros w d Hd Hmk.
      rewrite list_vehicles_asks.
      rewrite (get_documents_vehicle_filters make type drive_mode w d Hd).
      * do 3 f_equal. apply List.filter_ext. intros doc.
        unfold vehicle_wanted. by rewrite Hmk.
      * intros m ->. simpl in Hmk.
        destruct (String.eqb_spec m "") as [->|]; [reflexivity|done].
Qed.

Lemma list_vehicles_empty_parameter_absent_witness :
  list_vehicles (Some "") None None same_slug_world
  = (Ok (stringify_id
           <$> collection (default empty_db (db same_slug_world)) "vehicle"),
     same_slug_world)
  ∧ slugs_of (list_vehicles (Some "") (Some "suv") None fleet_world)
    = Ok [Some (VStr "b")]
  ∧ vehicle_filters (Some "") (Some "suv") None = {[ "type" := VStr "suv" ]}.
Proof.
  split; [|split].
  - destruct (list_vehicles_empty_parameter_absent (Some "") None None)
      as (_ & _ & _ & _ & Hempty & _).
    apply Hempty. reflexivity.
  - destruct (list_vehicles_empty_parameter_absent (Some "") (Some "suv") None)
      as (_ & _ & _ & _ & _ & _ & _ & _ & _ & _ & Hsel).
    unfold slugs_of.
    rewrite (Hsel fleet_world (default empty_db (db fleet_world)));
      reflexivity.
  - reflexivity.
Defined.

(** * Further properties of the handlers and of the schema classes *)

(** ** What a filter selects *)

(** X1: on a store in reach and for a make without pattern characters
    (or no make), [list_vehicles] returns exactly the stored vehicles that
    agree with every parameter given and not empty, in the order of the
    store and with their identifiers converted: the type and the drive
    mode are compared character by character; a stored make agrees when
    it is the make given up to the case of ASCII letters, or that followed
    by one newline, which the anchor [$] of the pattern lets pass; and the
    conditions add up. The state is left as it was. *)
Theorem list_vehicles_selection (make type drive_mode : option string)
  (w : World) (d : Database) :
  connect w = Ok d →
  (∀ m, make = Some m → Regex.plain m = true) →
  list_vehicles make type drive_mode w
  = (Ok (stringify_id
           <$> List.filter (vehicle_wanted make type drive_mode)
                 (collection d "vehicle")), w).
Proof.
  intros Hd Hplain. unfold list_vehicles, mbind, M_bind.
  rewrite (get_documents_vehicle_filters make type drive_mode w d Hd Hplain).
  reflexivity.
Qed.

Lemma list_vehicles_selection_witness :
  slugs_of (list_vehicles (Some "Lamborghini") (Some "suv") None fleet_world)
  = Ok [Some (VStr "b")].
Proof.
  unfold slugs_of.
  rewrite (list_vehicles_selection (Some "Lamborghini") (Some "suv") None
             fleet_world (default empty_db (db fleet_world))).
  - reflexivity.
  - reflexivity.
  - intros m [= <-]. reflexivity.
Defined.

(** ** Identifiers of the records returned *)

Lemma stringify_id_spec (it : Document) :
  id_is_str (stringify_id it)
  ∧ doc_fields (stringify_id it) = doc_fields it
  ∧ stringify_id (stringify_id it) = stringify_id it.
Proof.
  unfold stringify_id, id_is_str. destruct it as [[[oid|s]|] fields]; simpl.
  - pose proof (oid_hex_nonempty oid) as Hne.
    destruct (String.eqb_spec (oid_hex oid) ""); done.
  - destruct (String.eqb_spec s "") as [->|Hs]; simpl; [done|].
    by destruct (String.eqb_spec s "").
  - done.
Qed.

(** X2: no store identifier leaves the catalogue handlers: every record
    that [list_vehicles] or [get_vehicle] returns has under [_id] a [str]
    or nothing, never an ObjectId; the conversion keeps the other keys as
    they are, and converting twice is converting once. *)
Theorem returned_identifiers_are_strings :
  (∀ it, id_is_str (stringify_id it)
         ∧ doc_fields (stringify_id it) = doc_fields it
         ∧ stringify_id (stringify_id it) = stringify_id it)
  ∧ (∀ make type drive_mode w items w',
       list_vehicles make type drive_mode w = (Ok items, w') →
       Forall id_is_str items)
  ∧ (∀ slug w it w', get_vehicle slug w = (Ok it, w') → id_is_str it).
Proof.
  split; [exact stringify_id_spec|]. split.
  - intros make type drive_mode w items w'.
    unfold list_vehicles, mbind, M_bind.
    destruct (get_documents _ _ _ w) as [[l|e] w1]; [|done].
    intros [= <- _]. apply Forall_fmap, Forall_forall.
    intros it _. apply stringify_id_spec.
  - intros slug w it w'. rewrite get_vehicle_run.
    destruct (get_documents _ _ _ w).1 as [[|it0 l]|e]; try done.
    intros [= <- _]. apply stringify_id_spec.
Qed.

Lemma returned_identifiers_are_strings_witness :
  Forall id_is_str
    (stringify_id <$> collection (default empty_db (db fleet_world)) "vehicle").
Proof.
  destruct returned_identifiers_are_strings as (_ & Hlist & _).
  apply (Hlist None None None fleet_world _ fleet_world). reflexivity.
Defined.

(** ** The catalogue under reads and writes *)

Lemma get_documents_ok_connect (c : string) (f : Dict) (limit : option nat)
  (w : World) (l : list Document) :
  (get_documents c f limit w).1 = Ok l → ∃ d, connect w = Ok d.
Proof.
  unfold get_documents. destruct (connect w) as [d|e]; [eauto|done].
Qed.

Lemma list_vehicles_state (make type drive_mode : option string) (w : World) :
  (list_vehicles make type drive_mode w).2 = w.
Proof.
  unfold list_vehicles, mbind, M_bind.
  pose proof (get_documents_state "vehicle"
                (vehicle_filters make type drive_mode) None w) as Hw.
  destruct (get_documents _ _ _ w) as [[l|e] w1]; simpl in *; by subst.
Qed.

Lemma has_str_stringify (key s : string) (it : Document) :
  has_str key s (stringify_id it) = has_str key s it.
Proof.
  unfold has_str. by destruct (stringify_id_spec it) as (_ & -> & _).
Qed.

(** X3: what [get_vehicle] returns for a slug is one of the records that
    [list_vehicles] without parameters returns in the same state, and its
    slug is the one asked for; the state is the same afterwards. *)
Theorem get_vehicle_is_listed (slug : string) (w w' : World) (it : Document) :
  get_vehicle slug w = (Ok it, w') →
  w' = w
  ∧ has_str "slug" slug it = true
  ∧ ∃ items, list_vehicles None None None w = (Ok items, w) ∧ it ∈ items.
Proof.
  rewrite get_vehicle_run.
  destruct (get_documents _ _ _ w).1 as [[|it0 l]|e] eqn:Hq; try done.
  intros [= <- <-]. split; [done|].
  destruct (get_documents_ok_connect _ _ _ _ _ Hq) as [d Hd].
  rewrite (get_documents_slug slug w d Hd) in Hq. simpl in Hq.
  injection Hq as Hq.
  assert (Hin : it0 ∈ List.filter (has_str "slug" slug) (collection d "vehicle")).
  { destruct (List.filter _ _) as [|x xs]; [done|].
    simpl in Hq. rewrite take_0 in Hq. injection Hq as -> _. by left. }
  apply list_elem_of_In, filter_In in Hin as [Hin Hslug].
  split; [by rewrite has_str_stringify|].
  exists (stringify_id <$> collection d "vehicle"). split.
  - unfold list_vehicles, mbind, M_bind.
    change (vehicle_filters None None None) with (∅ : Dict).
    by rewrite (get_documents_all _ _ _ Hd).
  - apply list_elem_of_fmap. exists it0. split; [done|].
    by apply list_elem_of_In.
Qed.

Lemma get_vehicle_is_listed_witness :
  ∃ it items,
    get_vehicle "b" fleet_world = (Ok it, fleet_world)
    ∧ has_str "slug" "b" it = true
    ∧ list_vehicles None None None fleet_world = (Ok items, fleet_world)
    ∧ it ∈ items.
Proof.
  exists (stringify_id (stored (typed_vehicle "b" "LAMBORGHINI" "suv") 1)).
  destruct (get_vehicle_is_listed "b" fleet_world fleet_world
              (stringify_id (stored (typed_vehicle "b" "LAMBORGHINI" "suv") 1)))
    as (_ & Hslug & items & Hlist & Hin); [reflexivity|].
  exists items. split; [reflexivity|]. split; [exact Hslug|].
  split; [exact Hlist|exact Hin].
Defined.

Lemma connect_set_files (fs : gmap string (list Byte.byte)) (w : World) :
  connect (set_files fs w) = connect w.
Proof. reflexivity. Qed.

Lemma get_documents_congr (c : string) (f : Dict) (limit : option nat)
  (w w' : World) :
  match connect w, connect w' with
  | Ok d, Ok d' => collection d c = collection d' c
  | Raise e, Raise e' => e = e'
  | _, _ => False
  end →
  (get_documents c f limit w').1 = (get_documents c f limit w).1.
Proof.
  unfold get_documents.
  destruct (connect w) as [d|e], (connect w') as [d'|e']; try done.
  - intros ->. by destruct (read_filter f).
  - by intros ->.
Qed.

Lemma create_document_catalog {T} `{BaseModel T} (c : string) (x : T)
  (w : World) :
  c ≠ "vehicle" →
  match connect w, connect (after (create_document c x) w) with
  | Ok d, Ok d' => collection d "vehicle" = collection d' "vehicle"
  | Raise e, Raise e' => e = e'
  | _, _ => False
  end.
Proof.
  intros Hc. unfold after.
  destruct (connect w) as [d|e] eqn:Hd.
  - rewrite (create_document_ok _ _ _ _ Hd). cbn [snd].
    rewrite (connect_with_record _ _ _ _ Hd).
    by rewrite collection_with_record_ne.
  - rewrite (create_document_raises _ _ _ _ Hd). cbn [snd]. by rewrite Hd.
Qed.

Lemma connect_refl_catalog (w : World) :
  match connect w, connect w with
  | Ok d, Ok d' => collection d "vehicle" = collection d' "vehicle"
  | Raise e, Raise e' => e = e'
  | _, _ => False
  end.
Proof. by destruct (connect w). Qed.

Lemma write_request_catalog (w w' : World) :
  write_request w w' →
  match connect w, connect w' with
  | Ok d, Ok d' => collection d "vehicle" = collection d' "vehicle"
  | Raise e, Raise e' => e = e'
  | _, _ => False
  end.
Proof.
  intros [lead w0|booking w0|file w0].
  - unfold after. rewrite create_lead_run.
    pose proof (create_document_catalog "lead"
                  (lead_of lead (utcnow_isoformat w0)) w0) as Hc.
    unfold after, mbind, M_bind in *.
    destruct (create_document _ _ w0) as [[id|e] w1]; by apply Hc.
  - unfold after, submit_booking.
    destruct (_ && _); [apply connect_refl_catalog|].
    pose proof (create_document_catalog "booking" booking w0) as Hc.
    unfold after, mbind, M_bind in *.
    destruct (create_document _ _ w0) as [[id|e] w1]; by apply Hc.
  - unfold after. rewrite upload_file_run.
    destruct (bool_decide _); cbn [snd]; [|rewrite connect_set_files];
      apply connect_refl_catalog.
Qed.

(** X4: a lead, a booking or an upload, accepted or refused, never changes
    what the catalogue handlers answer: after the request, [list_vehicles]
    with any parameters and [get_vehicle] with any slug return or raise
    exactly what they did before. The catalogue handlers themselves leave
    the state as it is. *)
Theorem catalog_unchanged_by_writes :
  (∀ w w', write_request w w' →
     (∀ make type drive_mode,
        (list_vehicles make type drive_mode w').1
        = (list_vehicles make type drive_mode w).1)
     ∧ (∀ slug, (get_vehicle slug w').1 = (get_vehicle slug w).1))
  ∧ (∀ make type drive_mode w, (list_vehicles make type drive_mode w).2 = w)
  ∧ (∀ slug w, (get_vehicle slug w).2 = w).
Proof.
  split; [|split].
  - intros w w' Hreq%write_request_catalog. split.
    + intros make type drive_mode. unfold list_vehicles, mbind, M_bind.
      pose proof (get_documents_congr "vehicle"
                    (vehicle_filters make type drive_mode) None w w' Hreq) as Hq.
      destruct (get_documents _ _ _ w') as [r' w1'],
               (get_documents _ _ _ w) as [r w1].
      simpl in Hq. subst r'. by destruct r.
    + intros slug. rewrite !get_vehicle_run. cbn [fst].
      by rewrite (get_documents_congr "vehicle" _ _ w w' Hreq).
  - apply list_vehicles_state.
  - intros slug w. by rewrite get_vehicle_run.
Qed.

Lemma catalog_unchanged_by_writes_witness :
  (list_vehicles (Some "Lamborghini") None None
     (after (create_lead sample_quote) fleet_world)).1
  = (list_vehicles (Some "Lamborghini") None None fleet_world).1.
Proof.
  destruct catalog_unchanged_by_writes as (Hwrites & _ & _).
  apply (Hwrites fleet_world (after (create_lead sample_quote) fleet_world)).
  apply Request_lead.
Defined.

(** ** Uploads under one name *)



(** ** Validation of bookings *)

Lemma with_default_ok {A} (raw : Dict) (name : string) (p : Validator A)
  (default a : A) :
  with_default raw name p default = Ok a
  ↔ (raw !! name = None ∧ a = default)
    ∨ ∃ x, raw !! name = Some x ∧ p x = Some a.
Proof.
  unfold with_default. destruct (raw !! name) as [x|].
  - destruct (p x) as [b|] eqn:Hp; split.
    + intros [= <-]. right. eauto.
    + intros [[[=] _]|(x' & [= <-] & Hx)]. congruence.
    + done.
    + intros [[[=] _]|(x' & [= <-] & Hx)]. congruence.
  - split; [intros [= <-]; by left|].
    intros [[_ ->]|(x & [=] & _)]. done.
Qed.

Lemma literal_ok (choices : list string) (x : Value) (s : string) :
  literal_ choices x = Some s ↔ x = VStr s ∧ s ∈ choices.
Proof.
  unfold literal_. destruct x; try (split; [done|by intros [[=] _]]).
  case_bool_decide as Hin; split.
  - by intros [= <-].
  - by intros [[= <-] _].
  - done.
  - intros [[= <-] ?]. done.
Qed.

Lemma optional_ok {A} (p : Validator A) (x : Value) (o : option A) :
  optional_ p x = Some o
  ↔ (x = VNone ∧ o = None) ∨ (x ≠ VNone ∧ ∃ a, p x = Some a ∧ o = Some a).
Proof.
  unfold optional_. destruct x; cbn [fmap option_fmap option_map].
  1: { split; [intros [= <-]; by left|]. intros [[_ ->]|[? _]]; done. }
  all: destruct (p _) as [a|] eqn:Hp; cbn [fmap option_fmap option_map]; split;
    [intros [= <-]; right; split; [done|eauto]
    |intros [[[=] _]|[_ (a' & Ha' & ->)]]; congruence
    |done
    |intros [[[=] _]|[_ (a' & Ha' & ->)]]; congruence].
Qed.

Section BookingValidation.
Context `{Coercion}.

Lemma booking_validate_raises (body : Dict) (e : Exception) :
  Booking.validate body = Raise e → ∃ loc, e = ValidationError loc.
Proof.
  unfold Booking.validate. intros Hv.
  invert_validate_raise Hv (@required_raises) (@with_default_raises).
Qed.

Lemma booking_validate_fields (body : Dict) (b : Booking.t) :
  Booking.validate body = Ok b →
  (∀ k, k ∈ booking_required_keys → is_Some (body !! k))
  ∧ with_default body "preferred_contact" (literal_ Booking.contacts)
      "whatsapp" = Ok (Booking.preferred_contact b)
  ∧ with_default body "occasion" (optional_ (literal_ Booking.occasions)) None
    = Ok (Booking.occasion b)
  ∧ with_default body "driver_age_confirmed" bool_ false
    = Ok (Booking.driver_age_confirmed b)
  ∧ with_default body "drive_mode"
      (optional_ (literal_ Booking.drive_modes)) None
    = Ok (Booking.drive_mode b)
  ∧ with_default body "status" (literal_ Booking.statuses) "new"
    = Ok (Booking.status b).
Proof.
  intros Hv. unfold Booking.validate in Hv. invert_validate Hv.
  split; [|by repeat split].
  intros k Hk. unfold booking_required_keys in Hk.
  repeat (apply elem_of_cons in Hk as [->|Hk];
          [match goal with
           | Hf : required body ?n _ = Ok _ |- is_Some (body !! ?n) =>
               apply required_ok in Hf as (x & -> & _); by eexists
           end|]).
  by apply elem_of_nil in Hk.
Qed.
End BookingValidation.

Lemma post_bookings_valid `{Coercion} (body : Dict) (b : Booking.t)
  (w : World) :
  Booking.validate body = Ok b → post_bookings body w = submit_booking b w.
Proof. intros Hv. unfold post_bookings, mbind, M_bind, lift. by rewrite Hv. Qed.

Lemma post_bookings_invalid `{Coercion} (body : Dict) (e : Exception)
  (w : World) :
  Booking.validate body = Raise e → post_bookings body w = (Raise e, w).
Proof. intros Hv. unfold post_bookings, mbind, M_bind, lift. by rewrite Hv. Qed.

(** X6: a booking request for self-drive that leaves out
    [driver_age_confirmed] is never stored: the field defaults to false,
    so a body that validates is answered with the 400 exception of the
    age rule, and one that does not with its validation error; the state
    is the same afterwards. *)
Theorem self_drive_without_confirmation_refused (C : Coercion) (body : Dict)
  (w : World) :
  body !! "drive_mode" = Some (VStr "self-drive") →
  body !! "driver_age_confirmed" = None →
  (∀ b, Booking.validate body = Ok b →
        post_bookings body w
        = (Raise (HTTPException 400
                    "Driver age must be confirmed for self-drive"), w))
  ∧ ∃ e, post_bookings body w = (Raise e, w).
Proof.
  intros Hmode Hage.
  assert (Hvalid : ∀ b, Booking.validate body = Ok b →
    post_bookings body w
    = (Raise (HTTPException 400
                "Driver age must be confirmed for self-drive"), w)).
  { intros b Hv. rewrite (post_bookings_valid _ _ _ Hv).
    apply submit_booking_refused.
    apply booking_validate_fields in Hv as (_ & _ & _ & Ha & Hm & _).
    rewrite (with_default_absent _ _ _ _ Hage) in Ha. injection Ha as Ha.
    apply with_default_ok in Hm as [[Hnone _]|(x & Hx & Hm)]; [congruence|].
    rewrite Hmode in Hx. injection Hx as <-.
    apply optional_ok in Hm as [[[=] _]|[_ (a & Ha' & Hb)]].
    apply literal_ok in Ha' as [[= <-] _]. by split. }
  split; [done|].
  destruct (Booking.validate body) as [b|e] eqn:Hv; [eauto|].
  eexists. by apply post_bookings_invalid.
Qed.

Lemma self_drive_without_confirmation_refused_witness :
  post_bookings (H := strict_coercion) self_drive_body empty_world
  = (Raise (HTTPException 400 "Driver age must be confirmed for self-drive"),
     empty_world).
Proof.
  destruct (self_drive_without_confirmation_refused strict_coercion
              self_drive_body empty_world) as [Hvalid _];
    [reflexivity..|].
  apply (Hvalid (sample_booking (Some "self-drive") false)). reflexivity.
Defined.

(** X7: the status of a booking is the caller's: when a body that
    validates and passes the age rule gives "status", the booking and the
    record stored for it carry that very value, one of the five of the
    class, so a booking can arrive as "approved"; the handler sets no
    status of its own. *)
Theorem booking_status_as_supplied (C : Coercion) (body : Dict)
  (b : Booking.t) (w : World) (d : Database) :
  Booking.validate body = Ok b →
  ¬ unconfirmed_self_drive b →
  connect w = Ok d →
  let doc := stored b (db_next_oid d) in
  post_bookings body w
  = (Ok (ok_response (oid_hex (db_next_oid d))),
     set_db (with_record "booking" doc d) w)
  ∧ Booking.status b ∈ Booking.statuses
  ∧ doc_fields doc !! "status" = Some (VStr (Booking.status b))
  ∧ (∀ x, body !! "status" = Some x → x = VStr (Booking.status b)).
Proof.
  intros Hv Hrule Hd doc. split; [|split; [|split]].
  - rewrite (post_bookings_valid _ _ _ Hv), (submit_booking_passes _ _ Hrule).
    unfold mbind, M_bind. by rewrite (create_document_ok _ _ _ _ Hd).
  - apply booking_validate_fields in Hv as (_ & _ & _ & _ & _ & Hs).
    apply with_default_ok in Hs as [[_ ->]|(x & _ & [_ ?]%literal_ok)];
      [|done].
    unfold Booking.statuses. set_solver.
  - apply booking_dump_status.
  - intros x Hx.
    apply booking_validate_fields in Hv as (_ & _ & _ & _ & _ & Hs).
    apply with_default_ok in Hs as [[Hnone _]|(x' & Hx' & [-> _]%literal_ok)];
      congruence.
Qed.

Lemma booking_status_as_supplied_witness :
  post_bookings (H := strict_coercion) approved_body empty_world
  = (Ok (ok_response (oid_hex 0)),
     set_db (with_record "booking" (stored approved_booking 0) empty_db)
       empty_world)
  ∧ doc_fields (stored approved_booking 0) !! "status"
    = Some (VStr "approved").
Proof.
  destruct (booking_status_as_supplied strict_coercion approved_body
              approved_booking empty_world empty_db)
    as (Hrun & _ & Hstatus & _).
  - reflexivity.
  - by intros [? _].
  - reflexivity.
  - split; [exact Hrun|exact Hstatus].
Defined.

(** X8: the enumerated fields of an accepted booking hold listed values
    only: the preferred contact is whatsapp, phone or email, the occasion
    and the drive mode, when given, are among theirs, and the status is
    one of the five. The drive mode "both", which a vehicle may have, is
    not one a booking may have: a body with a drive mode or a status
    outside the lists is rejected with a validation error. *)
Theorem booking_enumerated_fields (C : Coercion) (body : Dict) :
  (∀ b, Booking.validate body = Ok b →
     Booking.preferred_contact b ∈ ["whatsapp"; "phone"; "email"]
     ∧ (∀ o, Booking.occasion b = Some o →
             o ∈ ["nightlife"; "wedding"; "corporate"; "weekend"; "other"])
     ∧ (∀ m, Booking.drive_mode b = Some m → m ∈ ["self-drive"; "chauffeur"])
     ∧ Booking.status b
       ∈ ["new"; "reviewing"; "approved"; "declined"; "canceled"])
  ∧ (∀ s, body !! "drive_mode" = Some (VStr s) →
          s ∉ ["self-drive"; "chauffeur"] →
          ∃ loc, Booking.validate body = Raise (ValidationError loc))
  ∧ (∀ s, body !! "status" = Some (VStr s) →
          s ∉ ["new"; "reviewing"; "approved"; "declined"; "canceled"] →
          ∃ loc, Booking.validate body = Raise (ValidationError loc)).
Proof.
  split; [|split].
  - intros b (_ & Hc & Ho & _ & Hm & Hs)%booking_validate_fields.
    split; [|split; [|split]].
    + apply with_default_ok in Hc as [[_ ->]|(x & _ & [_ ?]%literal_ok)];
        [set_solver|done].
    + intros o Hsome. rewrite Hsome in Ho.
      apply with_default_ok in Ho as [[_ [=]]|(x & _ & Ho)].
      apply optional_ok in Ho as [[_ [=]]|[_ (a & Ha & [= <-])]].
      by apply literal_ok in Ha as [_ ?].
    + intros m Hsome. rewrite Hsome in Hm.
      apply with_default_ok in Hm as [[_ [=]]|(x & _ & Hm)].
      apply optional_ok in Hm as [[_ [=]]|[_ (a & Ha & [= <-])]].
      by apply literal_ok in Ha as [_ ?].
    + apply with_default_ok in Hs as [[_ ->]|(x & _ & [_ ?]%literal_ok)];
        [set_solver|done].
  - intros s Hbody Hout.
    destruct (Booking.validate body) as [b|e] eqn:Hv.
    2: { apply booking_validate_raises in Hv as [loc ->]. eauto. }
    exfalso. apply booking_validate_fields in Hv as (_ & _ & _ & _ & Hm & _).
    apply with_default_ok in Hm as [[Hnone _]|(x & Hx & Hm)]; [congruence|].
    rewrite Hbody in Hx. injection Hx as <-.
    apply optional_ok in Hm as [[[=] _]|[_ (a & Ha & _)]].
    apply literal_ok in Ha as [[= <-] Hin]. by apply Hout.
  - intros s Hbody Hout.
    destruct (Booking.validate body) as [b|e] eqn:Hv.
    2: { apply booking_validate_raises in Hv as [loc ->]. eauto. }
    exfalso. apply booking_validate_fields in Hv as (_ & _ & _ & _ & _ & Hs).
    apply with_default_ok in Hs as [[Hnone _]|(x & Hx & Hs)]; [congruence|].
    rewrite Hbody in Hx. injection Hx as <-.
    apply literal_ok in Hs as [[= <-] Hin]. by apply Hout.
Qed.

Lemma booking_enumerated_fields_witness :
  ∃ loc,
    Booking.validate (H := strict_coercion)
      (<["drive_mode" := VStr "both"]> sample_booking_body)
    = Raise (ValidationError loc).
Proof.
  destruct (booking_enumerated_fields strict_coercion
              (<["drive_mode" := VStr "both"]> sample_booking_body))
    as (_ & Hmode & _).
  apply (Hmode "both"); [reflexivity|].
  intros Hin. repeat (apply elem_of_cons in Hin as [[=]|Hin]).
  by apply elem_of_nil in Hin.
Defined.

(** X9: a booking request that lacks one of the seven fields without a
    default (vehicle_id, first_name, last_name, email, phone, start_date,
    end_date) is rejected with a validation error before the handler
    runs, and nothing is stored. *)
Theorem booking_missing_field_refused (C : Coercion) (body : Dict)
  (w : World) (k : string) :
  k ∈ booking_required_keys →
  body !! k = None →
  ∃ loc, post_bookings body w = (Raise (ValidationError loc), w).
Proof.
  intros Hk Hnone.
  destruct (Booking.validate body) as [b|e] eqn:Hv.
  - apply booking_validate_fields in Hv as (Hreq & _).
    destruct (Hreq k Hk) as [x Hx]. congruence.
  - pose proof (booking_validate_raises _ _ Hv) as [loc ->].
    exists loc. by apply post_bookings_invalid.
Qed.

Lemma booking_missing_field_refused_witness :
  ∃ loc,
    post_bookings (H := strict_coercion) (delete "email" sample_booking_body)
      empty_world
    = (Raise (ValidationError loc), empty_world).
Proof.
  apply (booking_missing_field_refused strict_coercion _ empty_world "email").
  - unfold booking_required_keys. set_solver.
  - apply lookup_delete_eq.
Defined.

(** ** The record of a lead *)

Lemma post_lead_valid `{Coercion} (body : Dict) (lead : QuoteRequest.t)
  (w : World) :
  QuoteRequest.validate body = Ok lead → post_lead body w = create_lead lead w.
Proof. intros Hv. unfold post_lead, mbind, M_bind, lift. by rewrite Hv. Qed.

(** X10: the record stored for a lead request that validates has the four
    keys source, form_type, payload and status; its payload has exactly
    eleven keys, the nine fields of [QuotePayload] (with [None] for those
    not given), contact and received_at; and contact has exactly the five
    contact keys. Nothing else of the request body reaches the store. *)
Theorem stored_lead_keys (C : Coercion) (body : Dict) (lead : QuoteRequest.t)
  (w : World) (d : Database) :
  QuoteRequest.validate body = Ok lead →
  connect w = Ok d →
  ∃ doc payload contact,
    post_lead body w
    = (Ok (ok_response (oid_hex (db_next_oid d))),
       set_db (with_record "lead" doc d) w)
    ∧ dom (doc_fields doc)
      = list_to_set ["source"; "form_type"; "payload"; "status"]
    ∧ doc_fields doc !! "payload" = Some (VDict payload)
    ∧ dom payload
      = list_to_set ["vehicle_slug"; "vehicle_id"; "drive_mode"; "start_date";
                     "end_date"; "delivery_location"; "occasion"; "addons";
                     "utm"; "contact"; "received_at"]
    ∧ payload !! "contact" = Some (VDict contact)
    ∧ dom contact
      = list_to_set ["first_name"; "last_name"; "email"; "phone";
                     "preferred_contact"]
    ∧ (QuotePayload.vehicle_id (QuoteRequest.payload lead) = None →
       payload !! "vehicle_id" = Some VNone).
Proof.
  intros Hv Hd.
  exists (stored (lead_of lead (utcnow_isoformat w)) (db_next_oid d)),
    (lead_payload lead (utcnow_isoformat w)), (contact_of lead).
  split; [by rewrite (post_lead_valid _ _ _ Hv), (create_lead_ok _ _ _ Hd)|].
  split; [reflexivity|]. split; [reflexivity|]. split; [reflexivity|].
  split; [reflexivity|]. split; [reflexivity|].
  intros Hnone. rewrite lead_payload_other by done.
  change (model_dump (QuoteRequest.payload lead) !! "vehicle_id")
    with (Some (opt_value VStr
                  (QuotePayload.vehicle_id (QuoteRequest.payload lead)))).
  by rewrite Hnone.
Qed.

Lemma stored_lead_keys_witness :
  ∃ doc payload,
    post_lead (H := strict_coercion) sample_quote_body empty_world
    = (Ok (ok_response (oid_hex 0)),
       set_db (with_record "lead" doc empty_db) empty_world)
    ∧ doc_fields doc !! "payload" = Some (VDict payload)
    ∧ payload !! "campaign" = None.
Proof.
  destruct (stored_lead_keys strict_coercion sample_quote_body sample_quote
              empty_world empty_db)
    as (doc & payload & contact & Hrun & _ & Hpayload & Hdom & _);
    [reflexivity..|].
  exists doc, payload. split; [exact Hrun|]. split; [exact Hpayload|].
  apply not_elem_of_dom. rewrite Hdom. by apply (bool_decide_unpack _).
Defined.

(** ** Requests that fail *)

(** X11: [create_lead] and [submit_booking], when they raise, leave the
    state exactly as it was. [create_lead] raises only what the gateway
    raises: never a validation error, never an HTTP error.
    [submit_booking] raises the 400 of the age rule or what the gateway
    raises. *)
Theorem failed_write_leaves_state :
  (∀ lead w e w',
     create_lead lead w = (Raise e, w') →
     w' = w ∧ connect w = Raise e ∧ ∃ cls msg, e = PyError cls msg)
  ∧ (∀ booking w e w',
       submit_booking booking w = (Raise e, w') →
       w' = w
       ∧ ((unconfirmed_self_drive booking
           ∧ e = HTTPException 400
                   "Driver age must be confirmed for self-drive")
          ∨ (¬ unconfirmed_self_drive booking ∧ connect w = Raise e))).
Proof.
  split.
  - intros lead w e w'. rewrite create_lead_run. unfold mbind, M_bind.
    destruct (connect w) as [d|e0] eqn:Hd.
    + by rewrite (create_document_ok _ _ _ _ Hd).
    + rewrite (create_document_raises _ _ _ _ Hd). intros [= <- <-].
      split; [done|]. split; [done|]. by eapply connect_raises.
  - intros booking w e w'.
    destruct (decide (unconfirmed_self_drive booking)) as [Hyes|Hno].
    + rewrite (submit_booking_refused _ _ Hyes). intros [= <- <-].
      split; [done|]. by left.
    + rewrite (submit_booking_passes _ _ Hno). unfold mbind, M_bind.
      destruct (connect w) as [d|e0] eqn:Hd.
      * by rewrite (create_document_ok _ _ _ _ Hd).
      * rewrite (create_document_raises _ _ _ _ Hd). intros [= <- <-].
        split; [done|]. by right.
Qed.

Lemma failed_write_leaves_state_witness :
  after (create_lead sample_quote) down_world = down_world
  ∧ connect down_world
    = Raise (PyError "ServerSelectionTimeoutError"
               "localhost:27017: connection refused").
Proof.
  destruct failed_write_leaves_state as (Hlead & _).
  destruct (Hlead sample_quote down_world
              (PyError "ServerSelectionTimeoutError"
                 "localhost:27017: connection refused")
              (after (create_lead sample_quote) down_world))
    as (Hw & Hc & _); [reflexivity|].
  split; [exact Hw|exact Hc].
Defined.

(** ** The fields of the diagnostics *)

(** X12: the response of [test_database] always has the same six keys
    and says that the backend runs. Its connection status is "Connected"
    exactly when the handle is there and the store lists its collections,
    and "Not Connected" otherwise. Without a handle the two fields on the
    environment stay [None]; with one, database_url says whether
    DATABASE_URL is set to something not empty, without showing it, and
    database_name is the value of DATABASE_NAME or a note that it is not
    set. *)
Theorem test_database_fields (w w' : World) (response : Dict) :
  test_database w = (Ok response, w') →
  dom response
  = list_to_set ["backend"; "database"; "database_url"; "database_name";
                 "connection_status"; "collections"]
  ∧ response !! "backend" = Some (VStr "✅ Running")
  ∧ (response !! "connection_status" = Some (VStr "Connected")
     ↔ ∃ d, connect w = Ok d)
  ∧ (response !! "connection_status" = Some (VStr "Connected")
     ∨ response !! "connection_status" = Some (VStr "Not Connected"))
  ∧ (db w = None →
     response !! "database_url" = Some VNone
     ∧ response !! "database_name" = Some VNone)
  ∧ (∀ d, db w = Some d →
       response !! "database_url"
       = Some (VStr (if truthy_str (getenv "DATABASE_URL" w)
                     then "✅ Set" else "❌ Not Set"))
       ∧ response !! "database_name"
         = Some (VStr (str_or (getenv "DATABASE_NAME" w) "❌ Not Set"))).
Proof.
  unfold test_database, connect.
  destruct (db w) as [d|] eqn:Hdb.
  - destruct (db_fault d) as [[cls msg]|] eqn:Hf.
    + unfold try_except, mbind, Stmt_bind, call, assign,
        list_collection_names. rewrite Hf. cbn beta iota.
      intros [= <- <-].
      split; [reflexivity|]. split; [reflexivity|]. split.
      { split; [intros [=]|intros [d' [=]]]. }
      split; [by right|]. split; [done|].
      intros d' _. split; reflexivity.
    + unfold try_except, mbind, Stmt_bind, call, assign,
        list_collection_names. rewrite Hf. cbn beta iota.
      intros [= <- <-].
      split; [reflexivity|]. split; [reflexivity|]. split.
      { split; [eauto|reflexivity]. }
      split; [by left|]. split; [done|].
      intros d' _. split; reflexivity.
  - unfold try_except, assign. cbn beta iota. intros [= <- <-].
    split; [reflexivity|]. split; [reflexivity|]. split.
    { split; [intros [=]|intros [d' [=]]]. }
    split; [by right|]. split; [intros _; split; reflexivity|].
    intros d' [=].
Qed.

Lemma test_database_fields_witness :
  ∃ response,
    test_database configured_world = (Ok response, configured_world)
    ∧ response !! "connection_status" = Some (VStr "Connected")
    ∧ response !! "database_url" = Some (VStr "✅ Set")
    ∧ response !! "database_name" = Some (VStr "rentals").
Proof.
  eexists. split; [reflexivity|].
  match goal with
  | |- ?r !! _ = _ ∧ _ =>
      destruct (test_database_fields configured_world configured_world r)
        as (_ & _ & Hstatus & _ & _ & Henv); [reflexivity|]
  end.
  split; [apply Hstatus; by eexists|].
  exact (Henv empty_db eq_refl).
Defined.

(** ** The other constraints of a vehicle *)

Section VehicleFields.
Context `{Coercion}.

Lemma optional_int_ok (raw : Dict) (name : string) (ge le : option Z)
  (o : option Z) :
  with_default raw name (optional_ (int_ ge le)) None = Ok o →
  ∀ z, o = Some z → in_bounds ge le z = true.
Proof.
  intros Ho z ->.
  apply with_default_ok in Ho as [[_ [=]]|(x & _ & Ho)].
  apply optional_ok in Ho as [[_ [=]]|[_ (a & Ha & [= <-])]].
  by apply int_bounds in Ha as [_ ?].
Qed.

Lemma optional_float_ok (raw : Dict) (name : string) (o : option spec_float) :
  with_default raw name (optional_ (float_ true)) None = Ok o →
  ∀ f, o = Some f → float_ge0 f = true.
Proof.
  intros Ho f ->.
  apply with_default_ok in Ho as [[_ [=]]|(x & _ & Ho)].
  apply optional_ok in Ho as [[_ [=]]|[_ (a & Ha & [= <-])]].
  by apply float_bounds in Ha as [_ ?].
Qed.

Lemma vehicle_validate_more_fields (raw : Dict) (v : Vehicle.t) :
  Vehicle.validate raw = Ok v →
  required raw "type" (literal_ Vehicle.types) = Ok (Vehicle.type v)
  ∧ with_default raw "drive_mode" (literal_ Vehicle.drive_modes) "both"
    = Ok (Vehicle.drive_mode v)
  ∧ with_default raw "price_per_week" (optional_ (float_ true)) None
    = Ok (Vehicle.price_per_week v)
  ∧ required raw "overage_fee_per_mile" (float_ true)
    = Ok (Vehicle.overage_fee_per_mile v)
  ∧ with_default raw "horsepower" (optional_ (int_ (Some 0%Z) None)) None
    = Ok (Vehicle.horsepower v)
  ∧ with_default raw "torque" (optional_ (int_ (Some 0%Z) None)) None
    = Ok (Vehicle.torque v)
  ∧ with_default raw "zero_to_60" (optional_ (float_ true)) None
    = Ok (Vehicle.zero_to_60 v)
  ∧ with_default raw "available" bool_ true = Ok (Vehicle.available v).
Proof.
  intros Hv. unfold Vehicle.validate in Hv. invert_validate Hv.
  by repeat split.
Qed.
End VehicleFields.

(** X13: besides its ranges, an accepted vehicle has a type among
    supercar, suv, luxury, sedan and convertible and a drive mode among
    self-drive, chauffeur and both, which is "both" when the payload gives
    none; its overage fee, and its weekly price, horsepower, torque and
    0-to-60 time when given, are not negative; and it is available unless
    the payload says otherwise. *)
Theorem vehicle_enumerations_and_defaults (C : Coercion) (raw : Dict)
  (v : Vehicle.t) :
  Vehicle.validate raw = Ok v →
  Vehicle.type v ∈ ["supercar"; "suv"; "luxury"; "sedan"; "convertible"]
  ∧ Vehicle.drive_mode v ∈ ["self-drive"; "chauffeur"; "both"]
  ∧ (raw !! "drive_mode" = None → Vehicle.drive_mode v = "both")
  ∧ float_ge0 (Vehicle.overage_fee_per_mile v) = true
  ∧ (∀ p, Vehicle.price_per_week v = Some p → float_ge0 p = true)
  ∧ (∀ n, Vehicle.horsepower v = Some n → (0 ≤ n)%Z)
  ∧ (∀ n, Vehicle.torque v = Some n → (0 ≤ n)%Z)
  ∧ (∀ t, Vehicle.zero_to_60 v = Some t → float_ge0 t = true)
  ∧ (raw !! "available" = None → Vehicle.available v = true).
Proof.
  intros (Hty & Hdm & Hpw & Hov & Hhp & Htq & Hz & Hav)%vehicle_validate_more_fields.
  split; [|split; [|split; [|split; [|split; [|split; [|split; [|split]]]]]]].
  - by apply required_ok in Hty as (x & _ & [_ ?]%literal_ok).
  - apply with_default_ok in Hdm as [[_ ->]|(x & _ & [_ ?]%literal_ok)];
      [set_solver|done].
  - intros Hnone. rewrite (with_default_absent _ _ _ _ Hnone) in Hdm.
    by injection Hdm.
  - by apply required_ok in Hov as (x & _ & [_ ?]%float_bounds).
  - exact (optional_float_ok _ _ _ Hpw).
  - intros n Hn. apply (optional_int_ok _ _ _ _ _ Hhp) in Hn.
    by apply in_bounds_ge in Hn.
  - intros n Hn. apply (optional_int_ok _ _ _ _ _ Htq) in Hn.
    by apply in_bounds_ge in Hn.
  - exact (optional_float_ok _ _ _ Hz).
  - intros Hnone. rewrite (with_default_absent _ _ _ _ Hnone) in Hav.
    by injection Hav.
Qed.

Lemma vehicle_enumerations_and_defaults_witness :
  Vehicle.drive_mode (sample_vehicle "roma" "Ferrari" 2020) = "both"
  ∧ Vehicle.available (sample_vehicle "roma" "Ferrari" 2020) = true.
Proof.
  destruct (vehicle_enumerations_and_defaults strict_coercion
              (sample_vehicle_body 2020) (sample_vehicle "roma" "Ferrari" 2020))
    as (_ & _ & Hmode & _ & _ & _ & _ & _ & Havail); [reflexivity|].
  split; [by apply Hmode|by apply Havail].
Defined.

(** ** Keys of a payload and the fields that read them *)

Lemma required_insert_ne {A} (raw : Dict) (k name : string) (x : Value)
  (p : Validator A) :
  k ≠ name → required (<[k := x]> raw) name p = required raw name p.
Proof. intros Hne. unfold required. by rewrite lookup_insert_ne. Qed.

Lemma with_default_insert_ne {A} (raw : Dict) (k name : string) (x : Value)
  (p : Validator A) (default : A) :
  k ≠ name →
  with_default (<[k := x]> raw) name p default
  = with_default raw name p default.
Proof. intros Hne. unfold with_default. by rewrite lookup_insert_ne. Qed.

Lemma with_default_insert_eq {A} (raw : Dict) (name : string) (x : Value)
  (p : Validator A) (default a : A) :
  p x = Some a → with_default (<[name := x]> raw) name p default = Ok a.
Proof.
  intros Hp. unfold with_default. by rewrite lookup_insert_eq, Hp.
Qed.

(** X16: unlike a booking, a lead request takes any string as preferred
    contact: a body that validates still validates when its
    preferred_contact is replaced by any string, and gives the same
    request with that contact; without the key the contact is "whatsapp";
    either way it is what the stored lead holds under
    contact.preferred_contact. *)
Theorem lead_preferred_contact_is_free (C : Coercion) (body : Dict)
  (lead : QuoteRequest.t) (s : string) :
  QuoteRequest.validate body = Ok lead →
  as_str (VStr s) = Some s →
  QuoteRequest.validate (<["preferred_contact" := VStr s]> body)
  = Ok (with_preferred_contact s lead)
  ∧ (body !! "preferred_contact" = None →
     QuoteRequest.preferred_contact lead = "whatsapp")
  ∧ ∀ now,
      lead_payload (with_preferred_contact s lead) now !! "contact"
      = Some (VDict (<["preferred_contact" := VStr s]> (contact_of lead))).
Proof.
  intros Hv Hs. split; [|split].
  - unfold QuoteRequest.validate in *. invert_validate Hv.
    unfold mbind, Result_bind.
    repeat (rewrite ?required_insert_ne by done;
            match goal with
            | Hf : ?r = Ok _ |- context [match ?r with _ => _ end] =>
                rewrite Hf
            end).
    by rewrite (with_default_insert_eq _ _ _ _ _ _ Hs).
  - intros Hnone. unfold QuoteRequest.validate in Hv. invert_validate Hv.
    rewrite (with_default_absent _ _ _ _ Hnone) in Hfield3.
    by injection Hfield3.
  - intros now. rewrite lead_payload_contact. reflexivity.
Qed.

Lemma lead_preferred_contact_is_free_witness :
  QuoteRequest.validate (H := strict_coercion)
    (<["preferred_contact" := VStr "carrier pigeon"]> sample_quote_body)
  = Ok (with_preferred_contact "carrier pigeon" sample_quote).
Proof.
  apply (lead_preferred_contact_is_free strict_coercion sample_quote_body
           sample_quote "carrier pigeon"); reflexivity.
Defined.

(** X17: a key of the body that is not a field of [Booking], such as
    [_id] or [created_at], is ignored: the body validates to the same
    booking, or fails with the same error, with or without it, so the
    request is answered and stored in the same way. *)
Theorem booking_unknown_key_ignored (C : Coercion) (body : Dict) (k : string)
  (x : Value) (w : World) :
  k ∉ booking_field_names →
  Booking.validate (<[k := x]> body) = Booking.validate body
  ∧ post_bookings (<[k := x]> body) w = post_bookings body w.
Proof.
  intros Hk.
  assert (Hne : ∀ n, bool_decide (n ∈ booking_field_names) = true → k ≠ n).
  { intros n Hn%bool_decide_eq_true ->. done. }
  assert (Hv : Booking.validate (<[k := x]> body) = Booking.validate body).
  { unfold Booking.validate, mbind, Result_bind.
    repeat (rewrite ?required_insert_ne, ?with_default_insert_ne
              by (apply Hne; reflexivity);
            match goal with
            | |- match ?r with _ => _ end = _ => destruct r; [|reflexivity]
            end).
    reflexivity. }
  split; [done|]. unfold post_bookings. by rewrite Hv.
Qed.

Lemma booking_unknown_key_ignored_witness :
  post_bookings (H := strict_coercion)
    (<["_id" := VStr "000000000000000000000007"]> sample_booking_body)
    empty_world
  = post_bookings (H := strict_coercion) sample_booking_body empty_world.
Proof.
  apply (booking_unknown_key_ignored strict_coercion).
  intros Hin. by apply (bool_decide_pack _) in Hin.
Defined.

(** ** The content classes *)

Section ContentClasses.
Context `{Coercion}.

Lemma testimonial_validate_raises (raw : Dict) (e : Exception) :
  Testimonial.validate raw = Raise e → ∃ loc, e = ValidationError loc.
Proof.
  unfold Testimonial.validate. intros Hv.
  invert_validate_raise Hv (@required_raises) (@with_default_raises).
Qed.

Lemma testimonial_validate_rating (raw : Dict) (t : Testimonial.t) :
  Testimonial.validate raw = Ok t →
  with_default raw "rating" (optional_ (int_ (Some 1%Z) (Some 5%Z))) None
  = Ok (Testimonial.rating t).
Proof.
  intros Hv. unfold Testimonial.validate in Hv. by invert_validate Hv.
Qed.

Lemma blogpost_validate_category (raw : Dict) (b : Blogpost.t) :
  Blogpost.validate raw = Ok b →
  required raw "category" (literal_ Blogpost.categories)
  = Ok (Blogpost.category b).
Proof.
  intros Hv. unfold Blogpost.validate in Hv. by invert_validate Hv.
Qed.

Lemma faq_validate_category (raw : Dict) (f : Faq.t) :
  Faq.validate raw = Ok f →
  with_default raw "category" (optional_ (literal_ Faq.categories)) None
  = Ok (Faq.category f).
Proof.
  intros Hv. unfold Faq.validate in Hv. by invert_validate Hv.
Qed.

Lemma service_validate_fields (raw : Dict) (s : Service.t) :
  Service.validate raw = Ok s →
  required raw "slug" str_ = Ok (Service.slug s)
  ∧ required raw "title" str_ = Ok (Service.title s)
  ∧ with_default raw "highlights" (list_ str_) [] = Ok (Service.highlights s).
Proof.
  intros Hv. unfold Service.validate in Hv. invert_validate Hv.
  by repeat split.
Qed.
End ContentClasses.

(** X15: the content classes keep their constraints. The rating of an
    accepted testimonial, when given, is in [1, 5], and a payload with a
    rating outside is rejected with a validation error. The category of an
    accepted blog post is one of nightlife, corporate, weekenders and
    spotlight and must be given, while the category of an accepted FAQ
    entry may be missing and is otherwise one of policy, booking, vehicles
    and services. An accepted service was given a slug and a title, and
    has no highlights unless the payload lists some. *)
Theorem content_classes_constraints (C : Coercion) (raw : Dict) :
  (∀ t, Testimonial.validate raw = Ok t →
        ∀ r, Testimonial.rating t = Some r → (1 ≤ r ≤ 5)%Z)
  ∧ (∀ x y, raw !! "rating" = Some x → x ≠ VNone → as_int x = Some y →
            ¬ (1 ≤ y ≤ 5)%Z →
            ∃ loc, Testimonial.validate raw = Raise (ValidationError loc))
  ∧ (∀ b, Blogpost.validate raw = Ok b →
          Blogpost.category b
          ∈ ["nightlife"; "corporate"; "weekenders"; "spotlight"]
          ∧ is_Some (raw !! "category"))
  ∧ (∀ f, Faq.validate raw = Ok f →
          (∀ c, Faq.category f = Some c →
                c ∈ ["policy"; "booking"; "vehicles"; "services"])
          ∧ (raw !! "category" = None → Faq.category f = None))
  ∧ (∀ s, Service.validate raw = Ok s →
          is_Some (raw !! "slug") ∧ is_Some (raw !! "title")
          ∧ (raw !! "highlights" = None → Service.highlights s = [])).
Proof.
  split; [|split; [|split; [|split]]].
  - intros t Hr%testimonial_validate_rating r Hsome.
    apply (optional_int_ok _ _ _ _ _ Hr) in Hsome.
    by apply in_bounds_both in Hsome.
  - intros x y Hx Hnone Hint Hbad.
    destruct (Testimonial.validate raw) as [t|e] eqn:Hv.
    2: { apply testimonial_validate_raises in Hv as [loc ->]. eauto. }
    exfalso. apply testimonial_validate_rating in Hv.
    apply with_default_ok in Hv as [[Habsent _]|(x' & Hx' & Ho)];
      [congruence|].
    rewrite Hx in Hx'. injection Hx' as <-.
    apply optional_ok in Ho as [[-> _]|[_ (a & Ha & _)]]; [done|].
    apply int_bounds in Ha as [Hint' Hb]. apply in_bounds_both in Hb.
    apply Hbad. by replace y with a by congruence.
  - intros b Hc%blogpost_validate_category.
    apply required_ok in Hc as (x & Hx & [_ Hin]%literal_ok).
    split; [done|]. by eexists.
  - intros f Hc%faq_validate_category. split.
    + intros c Hsome. rewrite Hsome in Hc.
      apply with_default_ok in Hc as [[_ [=]]|(x & _ & Hc)].
      apply optional_ok in Hc as [[_ [=]]|[_ (a & Ha & [= <-])]].
      by apply literal_ok in Ha as [_ ?].
    + intros Hnone. rewrite (with_default_absent _ _ _ _ Hnone) in Hc.
      by injection Hc.
  - intros s (Hslug & Htitle & Hh)%service_validate_fields.
    apply required_ok in Hslug as (x & -> & _).
    apply required_ok in Htitle as (x' & -> & _).
    split; [by eexists|]. split; [by eexists|].
    intros Hnone. rewrite (with_default_absent _ _ _ _ Hnone) in Hh.
    by injection Hh.
Qed.

Lemma content_classes_constraints_witness :
  ∃ loc,
    Testimonial.validate (H := strict_coercion) (sample_testimonial_body 6)
    = Raise (ValidationError loc).
Proof.
  destruct (content_classes_constraints strict_coercion
              (sample_testimonial_body 6)) as (_ & Hreject & _).
  apply (Hreject (VInt 6) 6%Z); [reflexivity|done|reflexivity|lia].
Defined.

(** ** Dumping a record and validating it again *)

Lemma strict_coercion_laws : CoercionLaws strict_coercion.
Proof.
  split; try done; intros x u Hx; by destruct x.
Qed.

Lemma required_again {A} (raw d : Dict) (name : string) (p : Validator A)
  (f : A → Value) (a : A) `{!Stable p f} :
  required raw name p = Ok a → d !! name = Some (f a) →
  required d name p = Ok a.
Proof.
  intros (x & _ & Hp)%required_ok Hd. apply required_ok.
  exists (f a). split; [done|]. by eapply stable.
Qed.

Lemma with_default_again {A} (raw d : Dict) (name : string) (p : Validator A)
  (f : A → Value) (default a : A) `{!Stable p f} :
  with_default raw name p default = Ok a →
  p (f default) = Some default →
  d !! name = Some (f a) →
  with_default d name p default = Ok a.
Proof.
  intros Hraw Hdflt Hd. apply with_default_ok. right.
  exists (f a). split; [done|].
  apply with_default_ok in Hraw as [[_ ->]|(x & _ & Hp)]; [done|].
  by eapply stable.
Qed.

Section Stability.
Context `{C : Coercion} {L : CoercionLaws C}.

#[export] Instance str_stable : Stable str_ VStr.
Proof. intros x a _. apply as_str_str. Qed.

#[export] Instance bool_stable : Stable bool_ VBool.
Proof. intros x a _. apply as_bool_bool. Qed.

Lemma bool_again (b : bool) : bool_ (VBool b) = Some b.
Proof. apply as_bool_bool. Qed.

#[export] Instance url_stable : Stable url_ VStr.
Proof. intros x a Hx. by eapply as_url_again. Qed.

#[export] Instance int_stable (ge le : option Z) : Stable (int_ ge le) VInt.
Proof.
  intros x a [_ Hb]%int_bounds. apply int_bounds.
  split; [apply as_int_int|done].
Qed.

#[export] Instance float_stable : Stable (float_ true) VFloat.
Proof.
  intros x a [_ Hb]%float_bounds. apply float_bounds.
  split; [apply as_float_float|done].
Qed.
End Stability.

#[export] Instance literal_stable (choices : list string)
  : Stable (literal_ choices) VStr.
Proof. intros x a [_ Hin]%literal_ok. by apply literal_ok. Qed.

#[export] Instance dict_stable : Stable dict_ VDict.
Proof. intros x a _. reflexivity. Qed.

#[export] Instance VStr_never_none : NeverNone VStr.
Proof. by intros a. Qed.

#[export] Instance VInt_never_none : NeverNone VInt.
Proof. by intros a. Qed.

#[export] Instance VFloat_never_none : NeverNone VFloat.
Proof. by intros a. Qed.

#[export] Instance optional_stable {A} (p : Validator A) (f : A → Value)
  `{!Stable p f} `{!NeverNone f} : Stable (optional_ p) (opt_value f).
Proof.
  intros x o Ho. apply optional_ok.
  apply optional_ok in Ho as [[_ ->]|[_ (a & Ha & ->)]]; [by left|].
  right. cbn [opt_value]. split; [apply never_none|].
  exists a. split; [by eapply stable|done].
Qed.

Lemma mapM_stable {A} (p : Validator A) (f : A → Value) `{!Stable p f}
  (xs : list Value) (l : list A) :
  mapM p xs = Some l → mapM p (f <$> l) = Some l.
Proof.
  intros Hxs%mapM_Some_1. apply mapM_fmap_Forall_Some.
  induction Hxs as [|x a xs l Hx _ IH]; constructor; [|done].
  by eapply stable.
Qed.

#[export] Instance str_list_stable (p : Validator string) `{!Stable p VStr}
  : Stable (list_ p) str_list.
Proof.
  intros x l Hx. unfold list_ in *. destruct x; try done.
  unfold str_list. by eapply mapM_stable.
Qed.

Section RoundTrip.
Context `{C : Coercion} {L : CoercionLaws C}.

Lemma vehicle_round_trip (raw : Dict) (v : Vehicle.t) :
  Vehicle.validate raw = Ok v → Vehicle.validate (model_dump v) = Ok v.
Proof.
  intros Hv. unfold Vehicle.validate in Hv. invert_validate Hv.
  unfold Vehicle.validate, mbind, Result_bind.
  validate_again (@required_again) (@with_default_again) bool_again.
  reflexivity.
Qed.

Lemma booking_round_trip (raw : Dict) (b : Booking.t) :
  Booking.validate raw = Ok b → Booking.validate (model_dump b) = Ok b.
Proof.
  intros Hv. unfold Booking.validate in Hv. invert_validate Hv.
  unfold Booking.validate, mbind, Result_bind.
  validate_again (@required_again) (@with_default_again) bool_again.
  reflexivity.
Qed.

Lemma lead_round_trip (raw : Dict) (l : Lead.t) :
  Lead.validate raw = Ok l → Lead.validate (model_dump l) = Ok l.
Proof.
  intros Hv. unfold Lead.validate in Hv. invert_validate Hv.
  unfold Lead.validate, mbind, Result_bind.
  validate_again (@required_again) (@with_default_again) bool_again.
  reflexivity.
Qed.

Lemma testimonial_round_trip (raw : Dict) (t : Testimonial.t) :
  Testimonial.validate raw = Ok t →
  Testimonial.validate (model_dump t) = Ok t.
Proof.
  intros Hv. unfold Testimonial.validate in Hv. invert_validate Hv.
  unfold Testimonial.validate, mbind, Result_bind.
  validate_again (@required_again) (@with_default_again) bool_again.
  reflexivity.
Qed.

Lemma blogpost_round_trip (raw : Dict) (b : Blogpost.t) :
  Blogpost.validate raw = Ok b → Blogpost.validate (model_dump b) = Ok b.
Proof.
  intros Hv. unfold Blogpost.validate in Hv. invert_validate Hv.
  unfold Blogpost.validate, mbind, Result_bind.
  validate_again (@required_again) (@with_default_again) bool_again.
  reflexivity.
Qed.

Lemma faq_round_trip (raw : Dict) (f : Faq.t) :
  Faq.validate raw = Ok f → Faq.validate (model_dump f) = Ok f.
Proof.
  intros Hv. unfold Faq.validate in Hv. invert_validate Hv.
  unfold Faq.validate, mbind, Result_bind.
  validate_again (@required_again) (@with_default_again) bool_again.
  reflexivity.
Qed.

Lemma service_round_trip (raw : Dict) (s : Service.t) :
  Service.validate raw = Ok s → Service.validate (model_dump s) = Ok s.
Proof.
  intros Hv. unfold Service.validate in Hv. invert_validate Hv.
  unfold Service.validate, mbind, Result_bind.
  validate_again (@required_again) (@with_default_again) bool_again.
  reflexivity.
Qed.
End RoundTrip.

(** ** The response to a vehicle read back *)

Lemma get_vehicles_slug_inv `{Coercion} (slug : string) (w w' : World)
  (r : Dict) :
  get_vehicles_slug slug w = (Ok r, w') →
  ∃ it v, get_vehicle slug w = (Ok it, w')
          ∧ Vehicle.validate (doc_fields it) = Ok v ∧ r = model_dump v.
Proof.
  unfold get_vehicles_slug, mbind, M_bind, lift, serialize_vehicle.
  destruct (get_vehicle slug w) as [[it|e] w1]; [|done].
  destruct (Vehicle.validate (doc_fields it)) as [v|[]] eqn:Hv; [|done..].
  intros [= <- <-]. by exists it, v.
Qed.

Lemma vehicle_dump_no_id (v : Vehicle.t) : model_dump v !! "_id" = None.
Proof. reflexivity. Qed.

(** C5, as amended: a vehicle written through the gateway is stored with
    the fields of its [model_dump] under a fresh identifier; when it is
    the only stored vehicle with its slug, [get_vehicle] on that slug
    returns a record with exactly these fields and with the identifier in
    its string form, which is not empty; and the identifiers returned by
    successive writes are pairwise distinct. The response of the route,
    which serialises what the handler returned through
    [response_model=Vehicle], holds for a vehicle that validation accepted
    the fields written, from which validation gives the vehicle again,
    and never holds the key [_id]: the identifier is on the record the
    handler returns, not in the response. The part on the response holds
    when the conversions of the validation library return a value of the
    type asked for as it is. *)
Theorem vehicle_roundtrip_unique_slug :
  (∀ (v : Vehicle.t) (w : World) (d : Database),
     connect w = Ok d →
     create_document "vehicle" v w
     = (Ok (oid_hex (db_next_oid d)),
        set_db (with_record "vehicle" (stored v (db_next_oid d)) d) w)
     ∧ stored v (db_next_oid d)
       ∈ collection (with_record "vehicle" (stored v (db_next_oid d)) d)
           "vehicle")
  ∧ (∀ (v : Vehicle.t) (oid : N) (w : World) (d : Database),
       connect w = Ok d →
       stored v oid ∈ collection d "vehicle" →
       (∀ doc, doc ∈ collection d "vehicle" →
               has_str "slug" (Vehicle.slug v) doc = true →
               doc = stored v oid) →
       get_vehicle (Vehicle.slug v) w
       = (Ok {| doc_id := Some (IdStr (oid_hex oid));
                doc_fields := model_dump v |}, w)
       ∧ oid_hex oid ≠ "")
  ∧ (∀ (w w' : World) (ids : list string), write_run w ids w' → NoDup ids)
  ∧ (∀ (C : Coercion) (L : CoercionLaws C) (raw : Dict) (v : Vehicle.t)
       (oid : N) (w : World) (d : Database),
       Vehicle.validate raw = Ok v →
       connect w = Ok d →
       stored v oid ∈ collection d "vehicle" →
       (∀ doc, doc ∈ collection d "vehicle" →
               has_str "slug" (Vehicle.slug v) doc = true →
               doc = stored v oid) →
       get_vehicles_slug (Vehicle.slug v) w = (Ok (model_dump v), w)
       ∧ Vehicle.validate (model_dump v) = Ok v)
  ∧ (∀ (C : Coercion) (slug : string) (w w' : World) (r : Dict),
       get_vehicles_slug slug w = (Ok r, w') → r !! "_id" = None).
Proof.
  assert (Hread : ∀ (v : Vehicle.t) (oid : N) (w : World) (d : Database),
    connect w = Ok d →
    stored v oid ∈ collection d "vehicle" →
    (∀ doc, doc ∈ collection d "vehicle" →
            has_str "slug" (Vehicle.slug v) doc = true →
            doc = stored v oid) →
    get_vehicle (Vehicle.slug v) w
    = (Ok {| doc_id := Some (IdStr (oid_hex oid));
             doc_fields := model_dump v |}, w)).
  { intros v oid w d Hd Hin Huniq.
    rewrite (get_vehicle_found _ _ _ Hd).
    by rewrite (filter_unique_head _ _ (stored v oid) Hin
                  (stored_vehicle_slug v oid) Huniq). }
  split; [|split; [|split; [|split]]].
  - intros v w d Hd. split; [by apply create_document_ok|].
    rewrite collection_with_record_eq. apply elem_of_app. right. by left.
  - intros v oid w d Hd Hin Huniq. split; [|apply oid_hex_nonempty]. eauto.
  - intros w w' ids Hrun. by apply write_run_ids in Hrun as [_ ?].
  - intros C L raw v oid w d Hv Hd Hin Huniq.
    pose proof (vehicle_round_trip raw v Hv) as Hagain.
    split; [|exact Hagain].
    unfold get_vehicles_slug, mbind, M_bind.
    rewrite (Hread v oid w d Hd Hin Huniq).
    unfold lift, serialize_vehicle. cbn [doc_fields]. by rewrite Hagain.
  - intros C slug w w' r (it & v & _ & _ & ->)%get_vehicles_slug_inv.
    apply vehicle_dump_no_id.
Qed.

Lemma vehicle_roundtrip_witness :
  let w1 := after (create_document "vehicle" roma_2020) empty_world in
  (create_document "vehicle" roma_2020 empty_world
   = (Ok (oid_hex 0),
      set_db (with_record "vehicle" (stored roma_2020 0) empty_db) empty_world)
   ∧ stored roma_2020 0
     ∈ collection (with_record "vehicle" (stored roma_2020 0) empty_db)
         "vehicle")
  ∧ (get_vehicle "roma" w1
     = (Ok {| doc_id := Some (IdStr (oid_hex 0));
              doc_fields := model_dump roma_2020 |}, w1)
     ∧ oid_hex 0 ≠ "")
  ∧ NoDup [oid_hex 0; oid_hex 1]
  ∧ (get_vehicles_slug (H := strict_coercion) "roma" w1
     = (Ok (model_dump roma_2020), w1)
     ∧ Vehicle.validate (H := strict_coercion) (model_dump roma_2020)
       = Ok roma_2020).
Proof.
  intros w1.
  destruct vehicle_roundtrip_unique_slug
    as (Hwrite & Hread & Hids & Hresponse & _).
  assert (Hin : stored roma_2020 0
                ∈ collection (with_record "vehicle" (stored roma_2020 0)
                                empty_db) "vehicle").
  { change (stored roma_2020 0 ∈ [stored roma_2020 0]).
    apply list_elem_of_here. }
  assert (Huniq : ∀ doc,
    doc ∈ collection (with_record "vehicle" (stored roma_2020 0) empty_db)
            "vehicle" →
    has_str "slug" (Vehicle.slug roma_2020) doc = true →
    doc = stored roma_2020 0).
  { intros doc Hdoc _. change (doc ∈ [stored roma_2020 0]) in Hdoc.
    by apply list_elem_of_singleton in Hdoc. }
  split; [|split; [|split]].
  - apply (Hwrite roma_2020 empty_world empty_db). reflexivity.
  - apply (Hread roma_2020 0%N w1
             (with_record "vehicle" (stored roma_2020 0) empty_db));
      [reflexivity|exact Hin|exact Huniq].
  - apply (Hids empty_world same_slug_world).
    eapply Run_cons.
    { by apply (Write_step _ _ "vehicle" roma_2020). }
    eapply Run_cons; [|apply Run_nil].
    by apply (Write_step _ _ "vehicle" roma_2021).
  - apply (Hresponse strict_coercion strict_coercion_laws
             (sample_vehicle_body 2020) roma_2020 0%N w1
             (with_record "vehicle" (stored roma_2020 0) empty_db));
      [reflexivity|reflexivity|exact Hin|exact Huniq].
Defined.

(** C5, the claim as stated fails, in two ways. [roma_2021] is written to
    a store that already holds [roma_2020] under the same slug, and the
    query by that slug returns the record of [roma_2020], whose year and
    identifier are not those of the record just written. And when
    [roma_2020] is the only vehicle stored, so that the query by its slug
    returns it, the record the handler returns has the identifier while
    the response of the route has the fields written and no key [_id]. *)
Lemma vehicle_roundtrip_same_slug_counterexample :
  (create_document "vehicle" roma_2021
     (after (create_document "vehicle" roma_2020) empty_world)
   = (Ok "000000000000000000000001", same_slug_world)
   ∧ Vehicle.slug roma_2021 = "roma"
   ∧ ∃ it, get_vehicle "roma" same_slug_world = (Ok it, same_slug_world)
       ∧ doc_id it = Some (IdStr "000000000000000000000000")
       ∧ doc_fields it !! "year" = Some (VInt 2020)
       ∧ model_dump roma_2021 !! "year" = Some (VInt 2021))
  ∧ (let w1 := after (create_document "vehicle" roma_2020) empty_world in
     create_document "vehicle" roma_2020 empty_world
     = (Ok "000000000000000000000000", w1)
     ∧ ∃ it response,
         get_vehicle "roma" w1 = (Ok it, w1)
         ∧ doc_id it = Some (IdStr "000000000000000000000000")
         ∧ get_vehicles_slug (H := strict_coercion) "roma" w1
           = (Ok response, w1)
         ∧ response = model_dump roma_2020
         ∧ response !! "_id" = None).
Proof.
  split.
  - split; [reflexivity|]. split; [reflexivity|].
    eexists. split; [reflexivity|]. by repeat split.
  - split; [reflexivity|]. eexists _, _.
    split; [reflexivity|]. split; [reflexivity|].
    split; [reflexivity|]. split; reflexivity.
Qed.

(** X14: for each of the seven schema classes, the [model_dump] of a
    record that validation accepted validates again, and gives the same
    record: what is stored for an accepted record always passes the class
    it was stored under. This holds when the conversions of the
    validation library return a value of the type asked for as it is, and
    return again a URL they returned. *)
Theorem model_dump_validates_again (C : Coercion) (L : CoercionLaws C)
  (raw : Dict) :
  (∀ v, Vehicle.validate raw = Ok v → Vehicle.validate (model_dump v) = Ok v)
  ∧ (∀ b, Booking.validate raw = Ok b →
          Booking.validate (model_dump b) = Ok b)
  ∧ (∀ l, Lead.validate raw = Ok l → Lead.validate (model_dump l) = Ok l)
  ∧ (∀ t, Testimonial.validate raw = Ok t →
          Testimonial.validate (model_dump t) = Ok t)
  ∧ (∀ b, Blogpost.validate raw = Ok b →
          Blogpost.validate (model_dump b) = Ok b)
  ∧ (∀ f, Faq.validate raw = Ok f → Faq.validate (model_dump f) = Ok f)
  ∧ (∀ s, Service.validate raw = Ok s →
          Service.validate (model_dump s) = Ok s).
Proof.
  split; [apply vehicle_round_trip|]. split; [apply booking_round_trip|].
  split; [apply lead_round_trip|]. split; [apply testimonial_round_trip|].
  split; [apply blogpost_round_trip|]. split; [apply faq_round_trip|].
  apply service_round_trip.
Qed.

Lemma model_dump_validates_again_witness :
  Vehicle.validate (H := strict_coercion)
    (model_dump (sample_vehicle "roma" "Ferrari" 2020))
  = Ok (sample_vehicle "roma" "Ferrari" 2020)
  ∧ Booking.validate (H := strict_coercion)
      (model_dump (sample_booking None false))
    = Ok (sample_booking None false).
Proof.
  split.
  - destruct (model_dump_validates_again strict_coercion strict_coercion_laws
                (sample_vehicle_body 2020)) as (Hvehicle & _).
    apply Hvehicle. reflexivity.
  - destruct (model_dump_validates_again strict_coercion strict_coercion_laws
                sample_booking_body) as (_ & Hbooking & _).
    apply Hbooking. reflexivity.
Defined.

(** ** Lead requests that do not validate *)

Section QuoteValidation.
Context `{Coercion}.

Lemma quote_validate_raises (body : Dict) (e : Exception) :
  QuoteRequest.validate body = Raise e → ∃ loc, e = ValidationError loc.
Proof.
  unfold QuoteRequest.validate. intros Hv.
  invert_validate_raise Hv (@required_raises) (@with_default_raises).
Qed.

Lemma quote_validate_required (body : Dict) (lead : QuoteRequest.t) :
  QuoteRequest.validate body = Ok lead →
  (∀ k, k ∈ quote_required_keys → is_Some (body !! k))
  ∧ ∃ d, body !! "payload" = Some (VDict d)
         ∧ QuotePayload.validate d = Ok (QuoteRequest.payload lead).
Proof.
  intros Hv. unfold QuoteRequest.validate in Hv. invert_validate Hv. split.
  - intros k Hk. unfold quote_required_keys in Hk.
    repeat (apply elem_of_cons in Hk as [->|Hk];
            [match goal with
             | Hf : required body ?n _ = Ok _ |- is_Some (body !! ?n) =>
                 apply required_ok in Hf as (x & -> & _); by eexists
             end|]).
    by apply elem_of_nil in Hk.
  - apply required_ok in Hfield4 as (x & Hx & Hp).
    unfold QuoteRequest.model_ in Hp. destruct x; try done.
    destruct (QuotePayload.validate d) as [p|] eqn:Hd; [|done].
    injection Hp as <-. eauto.
Qed.
End QuoteValidation.

(** X18: a lead request that lacks first_name, last_name, email, phone or
    payload, or whose payload is not a mapping that validates against
    [QuotePayload], is rejected with a validation error before
    [create_lead] runs: nothing is stored and the state is as it was. *)
Theorem lead_missing_field_refused (C : Coercion) (body : Dict) (w : World) :
  ((∃ k, k ∈ quote_required_keys ∧ body !! k = None)
   ∨ (∀ d, body !! "payload" = Some (VDict d) →
           is_ok (QuotePayload.validate d) = false)) →
  ∃ loc, post_lead body w = (Raise (ValidationError loc), w).
Proof.
  intros Hbad.
  destruct (QuoteRequest.validate body) as [lead|e] eqn:Hv.
  - exfalso. apply quote_validate_required in Hv as (Hreq & d & Hd & Hp).
    destruct Hbad as [(k & Hk & Hnone)|Hpayload].
    + destruct (Hreq k Hk) as [x Hx]. congruence.
    + specialize (Hpayload d Hd). by rewrite Hp in Hpayload.
  - pose proof (quote_validate_raises _ _ Hv) as [loc ->].
    exists loc. unfold post_lead, mbind, M_bind, lift. by rewrite Hv.
Qed.

Lemma lead_missing_field_refused_witness :
  ∃ loc,
    post_lead (H := strict_coercion) (delete "phone" sample_quote_body)
      empty_world
    = (Raise (ValidationError loc), empty_world).
Proof.
  apply (lead_missing_field_refused strict_coercion).
  left. exists "phone". split; [|apply lookup_delete_eq].
  by apply (bool_decide_unpack _).
Defined.
